(** * prairie-operator: the HomeAgent reconciler

    A shallow embedding of [controllers/homeagent_controller.go].  The
    controller talks to the Kubernetes API through the [client.Client]
    interface; here that interface is a type class over an arbitrary world
    type, every call is recorded together with its answer, and [Reconcile]
    is the Go function written in state-passing style.  A concrete API
    server with fault injection instantiates the class for the store-level
    properties. *)

From stdpp Require Import base gmap list strings.
From Stdlib Require Import ZArith Lia.

Local Open Scope Z_scope.

(** ** Kubernetes API types, restricted to the fields the controller uses *)

Module metav1.
Record ObjectMeta := mkObjectMeta {
  Name : string;
  Namespace : string;
  Labels : gmap string string
}.

Record LabelSelector := mkLabelSelector {
  MatchLabels : gmap string string
}.
End metav1.

Module corev1.
Inductive PullPolicy := PullAlways | PullNever | PullIfNotPresent.

Record Capabilities := mkCapabilities { Add : list string }.

Record SecurityContext := mkSecurityContext {
  SCCapabilities : option Capabilities
}.

Record Container := mkContainer {
  CName : string;
  Image : string;
  ImagePullPolicy : PullPolicy;
  CSecurityContext : option SecurityContext
}.

Record PodSpec := mkPodSpec { Containers : list Container }.

Record PodTemplateSpec := mkPodTemplateSpec {
  TObjectMeta : metav1.ObjectMeta;
  TSpec : PodSpec
}.

Record PodStatus := mkPodStatus { PodIP : string }.

Record Pod := mkPod {
  ObjectMeta : metav1.ObjectMeta;
  Status : PodStatus
}.

Record PodList := mkPodList { Items : list Pod }.
End corev1.

Module appsv1.
(** [Replicas] is [*int32] in Go: [None] is the nil pointer. *)
Record DeploymentSpec := mkDeploymentSpec {
  Replicas : option Z;
  Selector : option metav1.LabelSelector;
  Template : corev1.PodTemplateSpec
}.

Record DeploymentStatus := mkDeploymentStatus { ReadyReplicas : Z }.

Record Deployment := mkDeployment {
  ObjectMeta : metav1.ObjectMeta;
  Spec : DeploymentSpec;
  Status : DeploymentStatus
}.
End appsv1.

Module prairiev1.
(** Modelled from the spec: the package [api/v1] (the file declaring the
    [HomeAgent] type) is not among the sources.  The fields are the ones
    the controller reads and writes: [Spec.Size] is an [int32] (it is
    compared with [Status.ReadyReplicas] and its address is stored in
    [Spec.Replicas]), [Status.NodeIps] is a [[]string].  The controller
    does no arithmetic on these integers, it only compares them and takes
    [Size] as a length, so they are kept in [Z] without wrap-around. *)
Record HomeAgentSpec := mkHomeAgentSpec { Size : Z }.

Record HomeAgentStatus := mkHomeAgentStatus { NodeIps : list string }.

Record HomeAgent := mkHomeAgent {
  ObjectMeta : metav1.ObjectMeta;
  Spec : HomeAgentSpec;
  Status : HomeAgentStatus
}.
End prairiev1.

(** [types.NamespacedName]: namespace first, then name. *)
Definition NamespacedName : Type := string * string.

(** [ctrl.Request] *)
Record Request := mkRequest { ReqNamespacedName : NamespacedName }.

(** [ctrl.Result]; [RequeueAfter] is a [time.Duration], in nanoseconds. *)
Record Result := mkResult { Requeue : bool; RequeueAfter : Z }.

(** ** Errors of the API machinery *)

Inductive StatusReason :=
| StatusReasonUnknown
| StatusReasonNotFound
| StatusReasonAlreadyExists
| StatusReasonConflict
| StatusReasonTimeout
| StatusReasonInternalError.

(** A non-nil Go [error]; a nil error is [None] in [option error]. *)
Record error := mkError { ErrReason : StatusReason; ErrMessage : string }.

(** [errors.IsNotFound] *)
Definition IsNotFound (err : error) : bool :=
  match ErrReason err with
  | StatusReasonNotFound => true
  | _ => false
  end.

(** ** The store interface and the record of calls *)

(** One call on the client together with the answer it received. *)
Inductive Event :=
| EvGetHomeAgent (key : NamespacedName) (ans : prairiev1.HomeAgent + error)
| EvGetDeployment (key : NamespacedName) (ans : appsv1.Deployment + error)
| EvCreate (obj : appsv1.Deployment) (ans : option error)
| EvDelete (obj : appsv1.Deployment) (ans : option error)
| EvList (labels : gmap string string) (ans : corev1.PodList + error)
| EvStatusUpdate (obj : prairiev1.HomeAgent) (ans : option error).

(** [client.Client], at the object kinds the controller uses it with:
    [r.Get] on a HomeAgent and on a Deployment, [r.Create] and [r.Delete] on
    a Deployment, [r.List] on pods with [client.MatchingLabels], and
    [r.Status().Update] on a HomeAgent.  A read answers with the object or
    with the error; a write answers with the error or nil.  Every operation
    may change the world. *)
Class Client (W : Type) := {
  GetHomeAgent : NamespacedName -> W -> (prairiev1.HomeAgent + error) * W;
  GetDeployment : NamespacedName -> W -> (appsv1.Deployment + error) * W;
  Create : appsv1.Deployment -> W -> option error * W;
  Delete : appsv1.Deployment -> W -> option error * W;
  List : gmap string string -> W -> (corev1.PodList + error) * W;
  StatusUpdate : prairiev1.HomeAgent -> W -> option error * W
}.

(** How a Go function ends: it returns, or it panics. *)
Inductive Outcome (A : Type) :=
| Returned (a : A)
| Panicked (msg : string).
Arguments Returned {A} a.
Arguments Panicked {A} msg.

(** [time.ParseDuration("800ms")] *)
Definition Millisecond : Z := 1000000.
Definition wait_duration : Z := 800 * Millisecond.

(** [make([]string, n)]: panics on a negative length. *)
Definition make_strings (n : Z) : option (list string) :=
  if n <? 0 then None else Some (replicate (Z.to_nat n) EmptyString).

(** How the loop over [pods.Items] ends. *)
Inductive LoopExit :=
| LoopDone (podips : list string)
| LoopReturn (res : Result) (err : option error)
| LoopPanic (msg : string).

(** The body of [for idx, pod := range pods.Items]: return early on an empty
    address, otherwise the bounds-checked write [podips[idx] = ip]. *)
Fixpoint collect_podips (idx : nat) (items : list corev1.Pod)
    (podips : list string) : LoopExit :=
  match items with
  | [] => LoopDone podips
  | pod :: rest =>
      let ip := corev1.PodIP (corev1.Status pod) in
      if String.eqb ip EmptyString then LoopReturn (mkResult false wait_duration) None
      else if (idx <? length podips)%nat
           then collect_podips (S idx) rest (<[idx := ip]> podips)
           else LoopPanic "index out of range"
  end.

(** [CreateDeployment] *)
Definition CreateDeployment (agent : prairiev1.HomeAgent) : appsv1.Deployment :=
  let labels : gmap string string :=
    {[ "parent"%string := metav1.Name (prairiev1.ObjectMeta agent) ]} in
  appsv1.mkDeployment
    (metav1.mkObjectMeta
       (metav1.Name (prairiev1.ObjectMeta agent))
       (metav1.Namespace (prairiev1.ObjectMeta agent))
       ∅)
    (appsv1.mkDeploymentSpec
       (Some (prairiev1.Size (prairiev1.Spec agent)))
       (Some (metav1.mkLabelSelector labels))
       (corev1.mkPodTemplateSpec
          (metav1.mkObjectMeta EmptyString EmptyString labels)
          (corev1.mkPodSpec
             [ corev1.mkContainer "ha" "kismi/mo-daemon:latest" corev1.PullAlways
                 (Some (corev1.mkSecurityContext
                          (Some (corev1.mkCapabilities ["NET_ADMIN"%string])))) ])))
    (appsv1.mkDeploymentStatus 0).

(** [home_agent.Status.NodeIps = podips] *)
Definition set_NodeIps (agent : prairiev1.HomeAgent) (podips : list string)
    : prairiev1.HomeAgent :=
  prairiev1.mkHomeAgent (prairiev1.ObjectMeta agent) (prairiev1.Spec agent)
    (prairiev1.mkHomeAgentStatus podips).

Section Reconciler.
Context {W : Type} `{Client W}.

(** The state threaded through an invocation: the world and the calls
    made so far, oldest first. *)
Definition St : Type := W * list Event.

Definition call {A : Type} (op : W -> A * W) (ev : A -> Event) (s : St)
    : A * St :=
  let '(a, w) := op (fst s) in (a, (w, snd s ++ [ev a])).

(** [DeleteDeployment]: any error of the read ends it silently, and the
    result of [r.Delete] is dropped. *)
Definition DeleteDeployment (req : Request) (s : St) : St :=
  let '(got, s) := call (GetDeployment (ReqNamespacedName req))
                        (EvGetDeployment (ReqNamespacedName req)) s in
  match got with
  | inr _ => s
  | inl deployment =>
      let '(_, s) := call (Delete deployment) (EvDelete deployment) s in s
  end.

(** [Reconcile] *)
Definition Reconcile (req : Request) (s : St)
    : Outcome (Result * option error) * St :=
  let '(got, s) := call (GetHomeAgent (ReqNamespacedName req))
                        (EvGetHomeAgent (ReqNamespacedName req)) s in
  match got with
  | inr err =>
      if IsNotFound err then
        let s := DeleteDeployment req s in
        (Returned (mkResult false 0, None), s)
      else (Returned (mkResult false 0, Some err), s)
  | inl home_agent =>
      let '(got, s) := call (GetDeployment (ReqNamespacedName req))
                            (EvGetDeployment (ReqNamespacedName req)) s in
      match got with
      | inr err =>
          if IsNotFound err then
            let d := CreateDeployment home_agent in
            let '(err, s) := call (Create d) (EvCreate d) s in
            match err with
            | Some err => (Returned (mkResult false 0, Some err), s)
            | None => (Returned (mkResult false wait_duration, None), s)
            end
          else (Returned (mkResult false 0, Some err), s)
      | inl deployment =>
          if appsv1.ReadyReplicas (appsv1.Status deployment)
             <? prairiev1.Size (prairiev1.Spec home_agent)
          then (Returned (mkResult false wait_duration, None), s)
          else
            let labels : gmap string string :=
              {[ "parent"%string :=
                   metav1.Name (prairiev1.ObjectMeta home_agent) ]} in
            let '(got, s) := call (List labels) (EvList labels) s in
            match got with
            | inr err => (Returned (mkResult false 0, Some err), s)
            | inl pods =>
                match make_strings (prairiev1.Size (prairiev1.Spec home_agent)) with
                | None => (Panicked "makeslice: len out of range", s)
                | Some podips =>
                    match collect_podips 0 (corev1.Items pods) podips with
                    | LoopPanic msg => (Panicked msg, s)
                    | LoopReturn res err => (Returned (res, err), s)
                    | LoopDone podips =>
                        let home_agent := set_NodeIps home_agent podips in
                        let '(err, s) := call (StatusUpdate home_agent)
                                              (EvStatusUpdate home_agent) s in
                        match err with
                        | Some err => (Returned (mkResult false 0, Some err), s)
                        | None => (Returned (mkResult false 0, None), s)
                        end
                    end
                end
            end
      end
  end.

(** One invocation from world [w], with an empty record of calls. *)
Definition invoke (req : Request) (w : W)
    : Outcome (Result * option error) * St :=
  Reconcile req (w, []).
End Reconciler.

(** ** A concrete API server

    The resource store is outside the repository; this instance of
    [Client] follows its documented contract: objects are kept per kind and
    keyed by namespace and name, a read of an absent key answers with a
    not-found error, [Create] refuses an existing key, [Delete] removes the
    key, [List] answers with the pods carrying the labels in store order,
    and the status update replaces only the status of the stored object.
    A plan of injected faults makes any call fail before it touches the
    cluster. *)

Definition key_of (m : metav1.ObjectMeta) : NamespacedName :=
  (metav1.Namespace m, metav1.Name m).

Record Cluster := mkCluster {
  homeagents : gmap NamespacedName prairiev1.HomeAgent;
  deployments : gmap NamespacedName appsv1.Deployment;
  pods : list corev1.Pod
}.

(** The world of the concrete client: the cluster and the faults still to
    be injected, one entry per call; [None] lets the call through, and so
    does an exhausted plan. *)
Record ApiServer := mkApiServer {
  cluster : Cluster;
  faults : list (option error)
}.

Definition not_found : error := mkError StatusReasonNotFound "not found".
Definition already_exists : error :=
  mkError StatusReasonAlreadyExists "already exists".

Definition store_get_homeagent (key : NamespacedName) (c : Cluster)
    : (prairiev1.HomeAgent + error) * Cluster :=
  match homeagents c !! key with
  | Some obj => (inl obj, c)
  | None => (inr not_found, c)
  end.

Definition store_get_deployment (key : NamespacedName) (c : Cluster)
    : (appsv1.Deployment + error) * Cluster :=
  match deployments c !! key with
  | Some obj => (inl obj, c)
  | None => (inr not_found, c)
  end.

Definition store_create (obj : appsv1.Deployment) (c : Cluster)
    : option error * Cluster :=
  let key := key_of (appsv1.ObjectMeta obj) in
  match deployments c !! key with
  | Some _ => (Some already_exists, c)
  | None =>
      (None, mkCluster (homeagents c) (<[key := obj]> (deployments c)) (pods c))
  end.

Definition store_delete (obj : appsv1.Deployment) (c : Cluster)
    : option error * Cluster :=
  let key := key_of (appsv1.ObjectMeta obj) in
  match deployments c !! key with
  | None => (Some not_found, c)
  | Some _ =>
      (None, mkCluster (homeagents c) (delete key (deployments c)) (pods c))
  end.

Definition has_labels (labels : gmap string string) (pod : corev1.Pod) : Prop :=
  map_Forall (fun k v => metav1.Labels (corev1.ObjectMeta pod) !! k = Some v)
             labels.

#[global] Instance has_labels_dec labels pod : Decision (has_labels labels pod).
Proof. unfold has_labels. apply _. Defined.

Definition store_list (labels : gmap string string) (c : Cluster)
    : (corev1.PodList + error) * Cluster :=
  (inl (corev1.mkPodList (filter (has_labels labels) (pods c))), c).

Definition store_status_update (obj : prairiev1.HomeAgent) (c : Cluster)
    : option error * Cluster :=
  let key := key_of (prairiev1.ObjectMeta obj) in
  match homeagents c !! key with
  | None => (Some not_found, c)
  | Some old =>
      let new := prairiev1.mkHomeAgent (prairiev1.ObjectMeta old)
                   (prairiev1.Spec old) (prairiev1.Status obj) in
      (None, mkCluster (<[key := new]> (homeagents c)) (deployments c) (pods c))
  end.

(** Run [op] on the cluster unless the plan injects a fault for this call. *)
Definition inject {A : Type} (fail : error -> A) (op : Cluster -> A * Cluster)
    (w : ApiServer) : A * ApiServer :=
  match faults w with
  | Some e :: rest => (fail e, mkApiServer (cluster w) rest)
  | None :: rest =>
      let '(a, c) := op (cluster w) in (a, mkApiServer c rest)
  | [] => let '(a, c) := op (cluster w) in (a, mkApiServer c [])
  end.

#[global] Instance apiserver : Client ApiServer := {|
  GetHomeAgent key := inject inr (store_get_homeagent key);
  GetDeployment key := inject inr (store_get_deployment key);
  Create obj := inject Some (store_create obj);
  Delete obj := inject Some (store_delete obj);
  List labels := inject inr (store_list labels);
  StatusUpdate obj := inject Some (store_status_update obj)
|}.

(** Reasoning about an invocation goes call by call: the operations of the
    class are not unfolded by [simpl]. *)
Arguments GetHomeAgent : simpl never.
Arguments GetDeployment : simpl never.
Arguments Create : simpl never.
Arguments Delete : simpl never.
Arguments List : simpl never.
Arguments StatusUpdate : simpl never.

(** A server that injects no fault. *)
Definition healthy (c : Cluster) : ApiServer := mkApiServer c [].

(** ** Sample objects *)

Definition sample_meta (name : string) : metav1.ObjectMeta :=
  metav1.mkObjectMeta name "default" ∅.

Definition sample_agent (size : Z) (ips : list string) : prairiev1.HomeAgent :=
  prairiev1.mkHomeAgent (sample_meta "ha-sample")
    (prairiev1.mkHomeAgentSpec size) (prairiev1.mkHomeAgentStatus ips).

Definition sample_deployment (replicas ready : Z) : appsv1.Deployment :=
  let d := CreateDeployment (sample_agent replicas []) in
  appsv1.mkDeployment (appsv1.ObjectMeta d) (appsv1.Spec d)
    (appsv1.mkDeploymentStatus ready).

Definition sample_pod (name ip : string) : corev1.Pod :=
  corev1.mkPod
    (metav1.mkObjectMeta name "default" {[ "parent"%string := "ha-sample"%string ]})
    (corev1.mkPodStatus ip).

Definition sample_key : NamespacedName := ("default"%string, "ha-sample"%string).
Definition sample_req : Request := mkRequest sample_key.

Definition sample_cluster (agent : option prairiev1.HomeAgent)
    (dep : option appsv1.Deployment) (ps : list corev1.Pod) : Cluster :=
  mkCluster
    (match agent with Some a => {[ sample_key := a ]} | None => ∅ end)
    (match dep with Some d => {[ sample_key := d ]} | None => ∅ end)
    ps.

(** ** Concrete clusters *)

(** Two HomeAgents requested, both running with an address. *)
Definition converged_cluster : Cluster :=
  sample_cluster (Some (sample_agent 2 []))
    (Some (sample_deployment 2 2))
    [sample_pod "ha-1" "2001:db8::1"; sample_pod "ha-2" "2001:db8::2"].

(** The desired size was lowered to 2 after the Deployment had been created
    with 3 replicas; the Deployment still runs its 3 pods. *)
Definition shrunk_cluster : Cluster :=
  sample_cluster (Some (sample_agent 2 []))
    (Some (sample_deployment 3 3))
    [sample_pod "ha-1" "2001:db8::1"; sample_pod "ha-2" "2001:db8::2";
     sample_pod "ha-3" "2001:db8::3"].

(** Desired size 3, four replicas reported ready, two pods listed. *)
Definition short_listing_cluster : Cluster :=
  sample_cluster (Some (sample_agent 3 []))
    (Some (sample_deployment 3 4))
    [sample_pod "ha-1" "2001:db8::1"; sample_pod "ha-2" "2001:db8::2"].

(** The converged cluster once the addresses are published. *)
Definition published_cluster : Cluster :=
  sample_cluster (Some (sample_agent 2 ["2001:db8::1"; "2001:db8::2"]%string))
    (Some (sample_deployment 2 2))
    [sample_pod "ha-1" "2001:db8::1"; sample_pod "ha-2" "2001:db8::2"].

(** A HomeAgent of size 2 was just applied: nothing runs yet. *)
Definition fresh_cluster : Cluster :=
  sample_cluster (Some (sample_agent 2 [])) None [].

(** What [fresh_cluster] becomes when the Deployment is created. *)
Definition created_cluster : Cluster :=
  sample_cluster (Some (sample_agent 2 []))
    (Some (CreateDeployment (sample_agent 2 []))) [].

(** Size 3 requested, one replica ready so far. *)
Definition starting_cluster : Cluster :=
  sample_cluster (Some (sample_agent 3 []))
    (Some (sample_deployment 3 1)) [sample_pod "ha-1" "2001:db8::1"].

(** The desired size was raised to 3 after the Deployment had been created
    with 2 replicas. *)
Definition grown_cluster : Cluster :=
  sample_cluster (Some (sample_agent 3 []))
    (Some (sample_deployment 2 2))
    [sample_pod "ha-1" "2001:db8::1"; sample_pod "ha-2" "2001:db8::2"].

(** The HomeAgent is gone, its Deployment is still there. *)
Definition orphan_cluster : Cluster :=
  sample_cluster None (Some (sample_deployment 2 2)) [].

Definition internal_error : error :=
  mkError StatusReasonInternalError "etcdserver: request timed out".

(** ** Readable projections *)

Abbreviation size_of agent := (prairiev1.Size (prairiev1.Spec agent)).
Abbreviation name_of agent := (metav1.Name (prairiev1.ObjectMeta agent)).
Abbreviation ready_of dep := (appsv1.ReadyReplicas (appsv1.Status dep)).
Abbreviation pod_ip pod := (corev1.PodIP (corev1.Status pod)).
Abbreviation key_in req := (ReqNamespacedName req).

(** The selector [client.MatchingLabels{"parent": home_agent.Name}]. *)
Definition parent_selector (name : string) : gmap string string :=
  {[ "parent"%string := name ]}.

(** The error a call was answered with, if any. *)
Definition failure_of (ev : Event) : option error :=
  match ev with
  | EvGetHomeAgent _ (inr e) | EvGetDeployment _ (inr e) | EvList _ (inr e) => Some e
  | EvCreate _ ans | EvDelete _ ans | EvStatusUpdate _ ans => ans
  | _ => None
  end.

(** A read of a single object answered with not-found: the two absences
    the controller acts upon. *)
Definition absent_read (ev : Event) : bool :=
  match ev with
  | EvGetHomeAgent _ (inr e) | EvGetDeployment _ (inr e) => IsNotFound e
  | _ => false
  end.

(** Calls that change the set of workloads. *)
Definition is_create (ev : Event) : bool :=
  match ev with EvCreate _ _ => true | _ => false end.
Definition is_delete (ev : Event) : bool :=
  match ev with EvDelete _ _ => true | _ => false end.
Definition is_status_update (ev : Event) : bool :=
  match ev with EvStatusUpdate _ _ => true | _ => false end.
Definition is_write (ev : Event) : bool :=
  is_create ev || is_delete ev || is_status_update ev.

(** ** The store across invocations *)

(** Every stored object sits under its own namespace and name. *)
Definition keyed_by_name (c : Cluster) : Prop :=
  map_Forall (fun key obj => key_of (prairiev1.ObjectMeta obj) = key) (homeagents c)
  /\ map_Forall (fun key obj => key_of (appsv1.ObjectMeta obj) = key) (deployments c).

(** I1: a Deployment exists for an identity exactly when the HomeAgent of
    that identity exists. *)
Definition workload_iff_desired (c : Cluster) : Prop :=
  forall key : NamespacedName,
    is_Some (deployments c !! key) <-> is_Some (homeagents c !! key).

(** A plan whose injected faults are never not-found errors: the store may
    fail, but it does not report an existing object as absent. *)
Definition transient (fs : list (option error)) : Prop :=
  Forall (fun f => forall e, f = Some e -> IsNotFound e = false) fs.

(** The cluster an invocation leaves behind. *)
Definition cluster_after (req : Request) (w : ApiServer) : Cluster :=
  cluster (fst (snd (invoke req w))).

(** One reconcile step: an invocation for any request, under any plan of
    transient faults. *)
Inductive reconcile_step (c : Cluster) : Cluster -> Prop :=
| reconcile_step_intro (req : Request) (fs : list (option error)) :
    transient fs ->
    reconcile_step c (cluster_after req (mkApiServer c fs)).

(** A change made outside the controller to the objects of one identity:
    the user applies, edits or deletes the HomeAgent, the Deployment is
    deleted or reports new readiness, pods come and go.  The objects stored
    under every other namespace and name stay what they were, and the store
    keeps every object under its own key. *)
Definition changed_at (key : NamespacedName) (c c' : Cluster) : Prop :=
  keyed_by_name c'
  /\ forall key' : NamespacedName,
       key' <> key ->
       homeagents c' !! key' = homeagents c !! key'
       /\ deployments c' !! key' = deployments c !! key'.

(** One step of the managed cluster: a reconcile step as above, or a change
    to one identity followed by the invocation that the change triggers for
    that identity, on a server that does not fail. *)
Inductive managed_step (c : Cluster) : Cluster -> Prop :=
| managed_reconcile (c' : Cluster) :
    reconcile_step c c' ->
    managed_step c c'
| managed_change (req : Request) (c1 : Cluster) :
    changed_at (key_in req) c c1 ->
    managed_step c (cluster_after req (healthy c1)).

(** The fault the plan holds for the next call. *)
Definition next_fault (w : ApiServer) : option error :=
  match faults w with
  | Some e :: _ => Some e
  | _ => None
  end.

Definition no_create_delete (log : list Event) : Prop :=
  Forall (fun ev => is_create ev = false /\ is_delete ev = false) log.


(** ** Three sentences of the specification, read literally *)

(** C2, read literally: the second of two invocations leaves the store as
    it was and issues no create, delete or update call. *)
Definition idempotent_as_stated (c : Cluster) (req : Request) : Prop :=
  let first := invoke req (healthy c) in
  let second := invoke req (fst (snd first)) in
  cluster (fst (snd second)) = cluster (fst (snd first))
  /\ Forall (fun ev => is_write ev = false) (snd (snd second)).

(** C3, read literally, in its two parts: a status update happens only
    when the ready count equals the size, and no empty address is ever
    written. *)
Definition written_only_when_ready_equals_size (c : Cluster) (req : Request) : Prop :=
  forall obj ans home_agent deployment,
    In (EvStatusUpdate obj ans) (snd (snd (invoke req (healthy c)))) ->
    homeagents c !! key_in req = Some home_agent ->
    deployments c !! key_in req = Some deployment ->
    ready_of deployment = size_of home_agent.

Definition no_empty_address_written (c : Cluster) (req : Request) : Prop :=
  forall obj ans,
    In (EvStatusUpdate obj ans) (snd (snd (invoke req (healthy c)))) ->
    Forall (fun ip => ip <> EmptyString) (prairiev1.NodeIps (prairiev1.Status obj)).

(** C6, read literally: every failure other than not-found is returned. *)
Definition failure_surfaced_as_stated (w : ApiServer) (req : Request) : Prop :=
  forall ev err,
    In ev (snd (snd (invoke req w))) ->
    failure_of ev = Some err ->
    IsNotFound err = false ->
    fst (invoke req w) = Returned (mkResult false 0, Some err).

(** ** Further clusters and runs *)

(** I1 at one identity. *)
Definition workload_iff_desired_at (key : NamespacedName) (c : Cluster) : Prop :=
  is_Some (deployments c !! key) <-> is_Some (homeagents c !! key).

(** Invocations for a series of requests, one after the other, on a server
    that does not fail. *)
Fixpoint reconcile_all (reqs : list Request) (c : Cluster) : Cluster :=
  match reqs with
  | [] => c
  | req :: rest => reconcile_all rest (cluster_after req (healthy c))
  end.

(** A negative size was applied; the Deployment exists. *)
Definition negative_cluster : Cluster :=
  sample_cluster (Some (sample_agent (-1) []))
    (Some (sample_deployment 1 0)) [sample_pod "ha-1" "2001:db8::1"].

(** Size 2, both replicas reported ready, the second pod has no address
    yet. *)
Definition missing_address_cluster : Cluster :=
  sample_cluster (Some (sample_agent 2 []))
    (Some (sample_deployment 2 2))
    [sample_pod "ha-1" "2001:db8::1"; sample_pod "ha-2" EmptyString].

(** A second HomeAgent, with its Deployment, beside the converged one. *)
Definition other_key : NamespacedName := ("default"%string, "ha-other"%string).

Definition other_agent : prairiev1.HomeAgent :=
  prairiev1.mkHomeAgent (sample_meta "ha-other")
    (prairiev1.mkHomeAgentSpec 1) (prairiev1.mkHomeAgentStatus []).

Definition shared_cluster : Cluster :=
  mkCluster
    (<[other_key := other_agent]> (homeagents converged_cluster))
    (<[other_key := CreateDeployment other_agent]> (deployments converged_cluster))
    (pods converged_cluster).

(** ** The address loop *)

Lemma collect_podips_fits (items : list corev1.Pod) :
  forall (idx : nat) (podips : list string),
    Forall (fun pod => pod_ip pod <> EmptyString) items ->
    (idx + length items <= length podips)%nat ->
    collect_podips idx items podips
    = LoopDone (take idx podips ++ map (fun pod => pod_ip pod) items
                  ++ drop (idx + length items) podips).
Proof.
  induction items as [|pod rest IH]; intros idx podips Hip Hlen; simpl in *.
  - by rewrite Nat.add_0_r, take_drop.
  - inversion Hip as [|? ? Hpod Hrest]; subst.
    destruct (String.eqb_spec (pod_ip pod) EmptyString) as [|_]; [done|].
    destruct (Nat.ltb_spec idx (length podips)) as [Hlt|]; [|lia].
    rewrite IH; [|done|rewrite length_insert; lia].
    f_equal.
    rewrite (take_S_r _ _ (pod_ip pod)) by (by apply list_lookup_insert_eq).
    rewrite take_insert_ge by lia.
    rewrite drop_insert_lt by lia.
    rewrite <- app_assoc. simpl.
    replace (S (idx + length rest)) with (idx + S (length rest))%nat by lia.
    done.
Qed.

Lemma collect_podips_exact (items : list corev1.Pod) (n : Z) (podips : list string) :
  Forall (fun pod => pod_ip pod <> EmptyString) items ->
  Z.of_nat (length items) = n ->
  make_strings n = Some podips ->
  collect_podips 0 items podips = LoopDone (map (fun pod => pod_ip pod) items).
Proof.
  intros Hip Hn Hmk. unfold make_strings in Hmk.
  destruct (Z.ltb_spec n 0); [done|]. simplify_eq.
  rewrite collect_podips_fits; [|done|rewrite length_replicate; lia].
  simpl. rewrite drop_ge by (rewrite length_replicate; lia).
  by rewrite app_nil_r.
Qed.

(** What each way of leaving the loop says about the listed pods. *)
Lemma collect_podips_done_inv (items : list corev1.Pod) :
  forall (idx : nat) (podips out : list string),
    collect_podips idx items podips = LoopDone out ->
    Forall (fun pod => pod_ip pod <> EmptyString) items
    /\ (items = [] \/ (idx + length items <= length podips)%nat)
    /\ length out = length podips.
Proof.
  induction items as [|pod rest IH]; intros idx podips out Hrun; simpl in *.
  - simplify_eq. auto.
  - destruct (String.eqb_spec (pod_ip pod) EmptyString) as [|Hne]; [done|].
    destruct (Nat.ltb_spec idx (length podips)) as [Hlt|]; [|done].
    apply IH in Hrun as (Hrest & Hfit & Hlen).
    rewrite length_insert in Hfit, Hlen.
    split; [by constructor|]. split; [|done].
    right. destruct Hfit as [->|]; simpl; lia.
Qed.

Lemma collect_podips_return_inv (items : list corev1.Pod) :
  forall (idx : nat) (podips : list string) res err,
    collect_podips idx items podips = LoopReturn res err ->
    res = mkResult false wait_duration /\ err = None
    /\ Exists (fun pod => pod_ip pod = EmptyString) items.
Proof.
  induction items as [|pod rest IH]; intros idx podips res err Hrun; simpl in *.
  - done.
  - destruct (String.eqb_spec (pod_ip pod) EmptyString) as [Heq|Hne].
    + simplify_eq. auto.
    + destruct (Nat.ltb_spec idx (length podips)); [|done].
      apply IH in Hrun as (-> & -> & Hex). auto.
Qed.

Lemma collect_podips_panic_inv (items : list corev1.Pod) :
  forall (idx : nat) (podips : list string) msg,
    collect_podips idx items podips = LoopPanic msg ->
    (length podips < idx + length items)%nat.
Proof.
  induction items as [|pod rest IH]; intros idx podips msg Hrun; simpl in *.
  - done.
  - destruct (String.eqb_spec (pod_ip pod) EmptyString); [done|].
    destruct (Nat.ltb_spec idx (length podips)); [|lia].
    apply IH in Hrun. rewrite length_insert in Hrun. lia.
Qed.

(** ** Tactics for one invocation *)

(** Unfold an invocation down to the client calls. *)
Ltac unfold_run :=
  unfold invoke, Reconcile, DeleteDeployment, call in *; simpl in *.

(** Split an invocation along every answer the client can give. *)
Ltac split_run := unfold_run; repeat case_match; simplify_eq/=.

(** ** The address buffer can be overrun *)

Lemma collect_podips_overflow (items : list corev1.Pod) :
  forall (idx : nat) (podips : list string),
    Forall (fun pod => pod_ip pod <> EmptyString) items ->
    (idx <= length podips)%nat ->
    (length podips < idx + length items)%nat ->
    collect_podips idx items podips = LoopPanic "index out of range".
Proof.
  induction items as [|pod rest IH]; intros idx podips Hip Hidx Hlen; simpl in *.
  - lia.
  - inversion Hip as [|? ? Hpod Hrest]; subst.
    destruct (String.eqb_spec (pod_ip pod) EmptyString) as [|_]; [done|].
    destruct (Nat.ltb_spec idx (length podips)); [|done].
    apply IH; [done| |]; rewrite length_insert; lia.
Qed.

Section Overrun.
Context {W : Type} `{Client W}.

(** Whenever the listing answers with more pods than the desired size, all
    of them with an address, the write [podips[idx] = ip] leaves the
    buffer and the invocation panics. *)
Lemma more_pods_than_size_panics (req : Request) (w w1 w2 w3 : W)
    (home_agent : prairiev1.HomeAgent) (deployment : appsv1.Deployment)
    (pods : corev1.PodList) :
  0 <= size_of home_agent ->
  GetHomeAgent (key_in req) w = (inl home_agent, w1) ->
  GetDeployment (key_in req) w1 = (inl deployment, w2) ->
  size_of home_agent <= ready_of deployment ->
  List (parent_selector (name_of home_agent)) w2 = (inl pods, w3) ->
  Forall (fun pod => pod_ip pod <> EmptyString) (corev1.Items pods) ->
  size_of home_agent < Z.of_nat (length (corev1.Items pods)) ->
  fst (invoke req w) = Panicked "index out of range".
Proof.
  intros Hsize Hha Hdep Hready Hlist Hip Hmore.
  unfold_run. rewrite Hha. simpl. rewrite Hdep. simpl.
  destruct (Z.ltb_spec (ready_of deployment) (size_of home_agent)); [lia|].
  fold (parent_selector (name_of home_agent)). rewrite Hlist. simpl.
  unfold make_strings.
  destruct (Z.ltb_spec (size_of home_agent) 0); [lia|].
  rewrite collect_podips_overflow; [done|done|simpl; lia|].
  rewrite length_replicate. lia.
Qed.
End Overrun.


(** ** Properties of one invocation, for every client *)

Section Invocation.
Context {W : Type} `{Client W}.

(** C1 (convergence).  When the HomeAgent is read with size [N >= 0], the
    Deployment is read with at least [N] ready replicas, and the list for
    the selector [{parent: name}] answers with exactly [N] pods that all
    have an address, the invocation makes exactly one write: the status
    update of the HomeAgent whose [NodeIps] are those [N] addresses in the
    order of the listing.  It returns the zero [Result] (no requeue)
    together with the answer of that update, so it ends in success as soon
    as the update is accepted. *)
Theorem C1_converged_writes_addresses (req : Request) (w w1 w2 w3 w4 : W)
    (home_agent : prairiev1.HomeAgent) (deployment : appsv1.Deployment)
    (pods : corev1.PodList) (ans : option error) :
  let ips := map (fun pod => pod_ip pod) (corev1.Items pods) in
  0 <= size_of home_agent ->
  GetHomeAgent (key_in req) w = (inl home_agent, w1) ->
  GetDeployment (key_in req) w1 = (inl deployment, w2) ->
  size_of home_agent <= ready_of deployment ->
  List (parent_selector (name_of home_agent)) w2 = (inl pods, w3) ->
  Z.of_nat (length (corev1.Items pods)) = size_of home_agent ->
  Forall (fun pod => pod_ip pod <> EmptyString) (corev1.Items pods) ->
  StatusUpdate (set_NodeIps home_agent ips) w3 = (ans, w4) ->
  invoke req w
  = (Returned (mkResult false 0, ans),
     (w4, [EvGetHomeAgent (key_in req) (inl home_agent);
           EvGetDeployment (key_in req) (inl deployment);
           EvList (parent_selector (name_of home_agent)) (inl pods);
           EvStatusUpdate (set_NodeIps home_agent ips) ans]))
  /\ Z.of_nat (length ips) = size_of home_agent
  /\ (ans = None ->
      fst (invoke req w) = Returned (mkResult false 0, None)).
Proof.
  intros ips Hsize Hha Hdep Hready Hlist Hlen Hip Hupd.
  assert (Hmk : make_strings (size_of home_agent)
                = Some (replicate (Z.to_nat (size_of home_agent)) EmptyString)).
  { unfold make_strings. by destruct (Z.ltb_spec (size_of home_agent) 0); [lia|]. }
  assert (Hrun : invoke req w
    = (Returned (mkResult false 0, ans),
       (w4, [EvGetHomeAgent (key_in req) (inl home_agent);
             EvGetDeployment (key_in req) (inl deployment);
             EvList (parent_selector (name_of home_agent)) (inl pods);
             EvStatusUpdate (set_NodeIps home_agent ips) ans]))).
  { unfold_run. rewrite Hha. simpl. rewrite Hdep. simpl.
    destruct (Z.ltb_spec (ready_of deployment) (size_of home_agent)); [lia|].
    fold (parent_selector (name_of home_agent)). rewrite Hlist. simpl.
    rewrite Hmk.
    rewrite (collect_podips_exact _ _ _ Hip Hlen Hmk).
    fold ips. rewrite Hupd. by destruct ans. }
  split; [done|]. split.
  - unfold ips. by rewrite length_map.
  - intros ->. by rewrite Hrun.
Qed.

(** C3, as amended.  A status update is issued only in an invocation that
    read the HomeAgent and the Deployment, found at least [size] ready
    replicas, and listed pods that all have a non-empty address; the
    object it commits is the HomeAgent that was read, with only [NodeIps]
    replaced.  In every other case the invocation issues no status update
    at all, so the status keeps its previous value. *)
Theorem C3_status_written_only_when_ready (req : Request) (w w' : W)
    (out : Outcome (Result * option error)) (log : list Event)
    (obj : prairiev1.HomeAgent) (ans : option error) :
  invoke req w = (out, (w', log)) ->
  In (EvStatusUpdate obj ans) log ->
  exists home_agent deployment pods,
    In (EvGetHomeAgent (key_in req) (inl home_agent)) log
    /\ In (EvGetDeployment (key_in req) (inl deployment)) log
    /\ In (EvList (parent_selector (name_of home_agent)) (inl pods)) log
    /\ size_of home_agent <= ready_of deployment
    /\ Forall (fun pod => pod_ip pod <> EmptyString) (corev1.Items pods)
    /\ obj = set_NodeIps home_agent (prairiev1.NodeIps (prairiev1.Status obj))
    /\ Z.of_nat (length (prairiev1.NodeIps (prairiev1.Status obj)))
       = size_of home_agent.
Proof.
  intros Hrun Hin. split_run; try (intuition congruence).
  all: destruct Hin as [|[|[|[Hin|[]]]]]; simplify_eq.
  all: match goal with
       | Hloop : collect_podips _ _ _ = LoopDone _, Hmk : make_strings _ = Some _,
         Hlt : (_ <? _) = false |- _ =>
           apply collect_podips_done_inv in Hloop as (Hip & _ & Hlen);
           apply Z.ltb_ge in Hlt; unfold make_strings in Hmk
       end.
  all: case_match; simplify_eq; rewrite length_replicate in Hlen.
  all: do 3 eexists; repeat split;
         [by left | by right; left | by right; right; left | done | done
         | simpl; lia].
Qed.

(** C4 (creation).  When the HomeAgent is read and the read of the
    Deployment answers not-found, the invocation issues exactly one write,
    the [Create] of [CreateDeployment home_agent], whose replica count is
    the desired size and whose selector is [{parent: name}]; it issues no
    status update, and when the create is accepted it returns a requeue
    after 800ms. *)
Theorem C4_absent_workload_created_once (req : Request) (w w1 w2 w3 : W)
    (home_agent : prairiev1.HomeAgent) (err : error) (ans : option error) :
  let d := CreateDeployment home_agent in
  GetHomeAgent (key_in req) w = (inl home_agent, w1) ->
  GetDeployment (key_in req) w1 = (inr err, w2) ->
  IsNotFound err = true ->
  Create d w2 = (ans, w3) ->
  snd (invoke req w)
  = (w3, [EvGetHomeAgent (key_in req) (inl home_agent);
          EvGetDeployment (key_in req) (inr err);
          EvCreate d ans])
  /\ length (filter (fun ev => is_create ev = true) (snd (snd (invoke req w)))) = 1%nat
  /\ filter (fun ev => is_status_update ev = true) (snd (snd (invoke req w))) = []
  /\ appsv1.Replicas (appsv1.Spec d) = Some (size_of home_agent)
  /\ appsv1.Selector (appsv1.Spec d)
     = Some (metav1.mkLabelSelector (parent_selector (name_of home_agent)))
  /\ (ans = None ->
      fst (invoke req w) = Returned (mkResult false 800000000, None)).
Proof.
  intros d Hha Hdep Hnf Hcr.
  assert (Hrun : invoke req w
    = (match ans with
       | Some e => Returned (mkResult false 0, Some e)
       | None => Returned (mkResult false 800000000, None)
       end,
       (w3, [EvGetHomeAgent (key_in req) (inl home_agent);
             EvGetDeployment (key_in req) (inr err);
             EvCreate d ans]))).
  { unfold_run. rewrite Hha. simpl. rewrite Hdep. simpl. rewrite Hnf.
    fold d. rewrite Hcr. by destruct ans. }
  rewrite Hrun. simpl. repeat split; try done. by intros ->.
Qed.

(** C5 (cleanup).  When the read of the HomeAgent answers not-found, the
    invocation reads the Deployment; if it is found it issues one
    [Delete] of that Deployment, and if the read fails (not-found or
    anything else) it issues no further call.  Whatever these calls
    answer, the invocation returns the zero [Result] and a nil error. *)
Theorem C5_cleanup_never_fails (req : Request) (w w1 : W) (err : error) :
  GetHomeAgent (key_in req) w = (inr err, w1) ->
  IsNotFound err = true ->
  invoke req w
  = (Returned (mkResult false 0, None),
     match GetDeployment (key_in req) w1 with
     | (inl deployment, w2) =>
         (snd (Delete deployment w2),
          [EvGetHomeAgent (key_in req) (inr err);
           EvGetDeployment (key_in req) (inl deployment);
           EvDelete deployment (fst (Delete deployment w2))])
     | (inr err', w2) =>
         (w2, [EvGetHomeAgent (key_in req) (inr err);
               EvGetDeployment (key_in req) (inr err')])
     end).
Proof.
  intros Hha Hnf. unfold_run. rewrite Hha. simpl. rewrite Hnf.
  destruct (GetDeployment (key_in req) w1) as [[deployment|err'] w2]; simpl.
  - by destruct (Delete deployment w2).
  - done.
Qed.

(** C6, as amended.  Outside the cleanup path, a call that fails, other
    than a read answered with not-found, ends the invocation: its error is
    returned unchanged with the zero [Result], and it is the last call the
    invocation makes (nothing is retried). *)
Theorem C6_failure_returned_unchanged (req : Request) (w w' : W)
    (out : Outcome (Result * option error)) (log : list Event)
    (ev : Event) (err : error) :
  invoke req w = (out, (w', log)) ->
  (forall e, In (EvGetHomeAgent (key_in req) (inr e)) log -> IsNotFound e = false) ->
  In ev log ->
  failure_of ev = Some err ->
  absent_read ev = false ->
  out = Returned (mkResult false 0, Some err) /\ last log = Some ev.
Proof.
  intros Hrun Hmain Hin Hfail Hread. split_run.
  all: try (exfalso;
            match goal with
            | Hnf : IsNotFound ?e = true |- _ =>
                specialize (Hmain e (or_introl eq_refl)); congruence
            end).
  all: repeat (destruct Hin as [Hin|Hin]; [subst ev; simpl in *; simplify_eq|]);
       try done; try congruence.
Qed.

(** C7 (partial readiness).  When the HomeAgent and the Deployment are
    both read and the Deployment has fewer ready replicas than the desired
    size, the invocation returns a requeue after 800ms and has made the
    two reads only: no create, no delete, no status update. *)
Theorem C7_not_ready_requeues_without_writes (req : Request) (w w1 w2 : W)
    (home_agent : prairiev1.HomeAgent) (deployment : appsv1.Deployment) :
  GetHomeAgent (key_in req) w = (inl home_agent, w1) ->
  GetDeployment (key_in req) w1 = (inl deployment, w2) ->
  ready_of deployment < size_of home_agent ->
  invoke req w
  = (Returned (mkResult false 800000000, None),
     (w2, [EvGetHomeAgent (key_in req) (inl home_agent);
           EvGetDeployment (key_in req) (inl deployment)])).
Proof.
  intros Hha Hdep Hlt. unfold_run. rewrite Hha. simpl. rewrite Hdep. simpl.
  by destruct (Z.ltb_spec (ready_of deployment) (size_of home_agent)); [|lia].
Qed.
End Invocation.


(** ** The concrete server *)

Lemma inject_eq {A : Type} (fail : error -> A) (op : Cluster -> A * Cluster)
    (w : ApiServer) :
  inject fail op w
  = match next_fault w with
    | Some e => (fail e, mkApiServer (cluster w) (tail (faults w)))
    | None => (fst (op (cluster w)),
               mkApiServer (snd (op (cluster w))) (tail (faults w)))
    end.
Proof.
  unfold inject, next_fault.
  destruct (faults w) as [|[e|] rest]; simpl; by destruct (op (cluster w)).
Qed.

Lemma transient_tail (fs : list (option error)) :
  transient fs -> transient (tail fs).
Proof. intros Hfs. destruct fs; [done|]. by inversion Hfs. Qed.

Lemma transient_next (w : ApiServer) (e : error) :
  transient (faults w) -> next_fault w = Some e -> IsNotFound e = false.
Proof.
  unfold next_fault. intros Hfs Hnext.
  destruct (faults w) as [|[e'|] rest]; simplify_eq.
  inversion Hfs; subst. auto.
Qed.

(** Split an invocation on the concrete server along the client calls, then
    open every call down to the maps. *)
Ltac open_call H :=
  unfold GetHomeAgent, GetDeployment, Create, Delete, List, StatusUpdate,
    apiserver in H;
  rewrite inject_eq in H;
  unfold store_get_homeagent, store_get_deployment, store_create,
    store_delete, store_list, store_status_update in H.

Ltac open_calls :=
  repeat match goal with
  | H : GetHomeAgent _ _ = _ |- _ => open_call H
  | H : GetDeployment _ _ = _ |- _ => open_call H
  | H : Create _ _ = _ |- _ => open_call H
  | H : Delete _ _ = _ |- _ => open_call H
  | H : List _ _ = _ |- _ => open_call H
  | H : StatusUpdate _ _ = _ |- _ => open_call H
  end.

Ltac split_store :=
  unfold cluster_after in *; split_run; open_calls;
  repeat case_match; simplify_eq/=.

(** Close the cases in which an injected fault would be a not-found. *)
Ltac use_transient Hfs :=
  repeat match goal with
  | Hn : next_fault {| cluster := _; faults := ?fs |} = Some ?e,
    Hnf : IsNotFound ?e = true |- _ =>
      exfalso;
      assert (IsNotFound e = false)
        by (apply (transient_next _ e) in Hn; [done|];
            simpl; repeat apply transient_tail; exact Hfs);
      congruence
  end.

(** Record, for every object read from the maps, that it is stored under
    its own key. *)
Ltac learn_keys Hha Hdep :=
  unfold key_of in *; simpl in *;
  repeat match goal with
  | Hl : homeagents _ !! ?k = Some ?obj |- _ =>
      let Hk := fresh "Hk" in
      assert (Hk : key_of (prairiev1.ObjectMeta obj) = k) by exact (Hha _ _ Hl);
      unfold key_of in Hk, Hl |- *; simpl in Hk, Hl |- *; try rewrite Hk in *;
      revert Hl
  | Hl : deployments _ !! ?k = Some ?obj |- _ =>
      let Hk := fresh "Hk" in
      assert (Hk : key_of (appsv1.ObjectMeta obj) = k) by exact (Hdep _ _ Hl);
      unfold key_of in Hk, Hl |- *; simpl in Hk, Hl |- *; try rewrite Hk in *;
      revert Hl
  end;
  intros; unfold key_of in *; simpl in *.

Lemma reconcile_step_preserves (c c' : Cluster) :
  workload_iff_desired c -> reconcile_step c c' -> workload_iff_desired c'.
Proof.
  intros Hinv [req fs Hfs].
  split_store; try done; use_transient Hfs.
  all: try (exfalso;
            match goal with
            | Ha : homeagents ?c0 !! ?k = _, Hd : deployments ?c0 !! ?k = _ |- _ =>
                destruct (Hinv k) as [Hto Hfrom]; rewrite Ha, Hd in Hto, Hfrom;
                first [ by destruct Hto | by destruct Hfrom ]
            end).
  all: try (by intros key; simpl; apply Hinv).
  all: intros key; simpl; rewrite (Hinv key).
  all: match goal with
       | Hold : homeagents _ !! ?k = Some _ |- context [<[?k := _]> _] =>
           destruct (decide (k = key)) as [<-|Hne];
           [rewrite lookup_insert_eq, Hold; by split
           | by rewrite lookup_insert_ne]
       end.
Qed.

(** The mechanism behind I1: whatever the cluster looked like, after one
    invocation on a healthy server the requested identity has a Deployment
    exactly when it has a HomeAgent (create-on-absent, delete-on-not-found). *)
Lemma reconcile_establishes_workload_iff_desired (c : Cluster) (req : Request) :
  keyed_by_name c ->
  let c' := cluster_after req (healthy c) in
  is_Some (deployments c' !! key_in req) <-> is_Some (homeagents c' !! key_in req).
Proof.
  intros [Hha Hdep]. split_store.
  all: learn_keys Hha Hdep; try congruence.
  all: rewrite ?lookup_insert_eq, ?lookup_delete_eq;
       repeat match goal with
       | Hl : _ !! _ = _ |- _ => rewrite Hl
       end;
       try (split; intros [? ?]; done); try (by split; eauto).
Qed.

(** An invocation reads and writes under the requested namespace and name
    only. *)
Lemma invocation_frame (c : Cluster) (fs : list (option error))
    (req : Request) (key : NamespacedName) :
  keyed_by_name c ->
  key <> key_in req ->
  homeagents (cluster_after req (mkApiServer c fs)) !! key = homeagents c !! key
  /\ deployments (cluster_after req (mkApiServer c fs)) !! key = deployments c !! key
  /\ pods (cluster_after req (mkApiServer c fs)) = pods c.
Proof.
  intros [Hha Hdep] Hne. split_store; try done.
  all: learn_keys Hha Hdep; try congruence.
  all: repeat split; try done.
  all: first [by rewrite lookup_insert_ne | by rewrite lookup_delete_ne].
Qed.

(** After a change to one identity, the invocation for that identity puts
    I1 back: it creates the Deployment of a HomeAgent that has none and
    deletes the Deployment whose HomeAgent is gone. *)
Lemma change_then_reconcile_restores (c c1 : Cluster) (req : Request) :
  workload_iff_desired c ->
  changed_at (key_in req) c c1 ->
  workload_iff_desired (cluster_after req (healthy c1)).
Proof.
  intros Hinv [Hkeyed Hsame] key.
  destruct (decide (key = key_in req)) as [->|Hne].
  - by apply reconcile_establishes_workload_iff_desired.
  - destruct (invocation_frame c1 [] req key Hkeyed Hne) as (Ha & Hd & _).
    destruct (Hsame key Hne) as [Ha' Hd'].
    unfold healthy. rewrite Ha, Hd, Ha', Hd'. apply Hinv.
Qed.

(** C8 (I1).  Start from a cluster in which a Deployment exists exactly for
    the identities that have a HomeAgent.  Every cluster reached by any
    number of steps still has a Deployment exactly for the identities that
    have a HomeAgent, where a step is a reconcile invocation for any
    request under any transient store failures, or any change made outside
    the controller to the objects of one identity (the HomeAgent is
    applied or deleted, the Deployment is deleted, ...) followed by the
    invocation for that identity on a store that does not fail.  After such
    a change the invocation restores the equivalence by creating the absent
    Deployment or deleting the Deployment of the absent HomeAgent. *)
Theorem C8_workload_iff_desired_maintained (c0 c : Cluster) :
  workload_iff_desired c0 ->
  rtc managed_step c0 c ->
  workload_iff_desired c.
Proof.
  intros Hinit Hsteps.
  induction Hsteps as [|c1 c2 c3 Hstep _ IH]; [done|].
  apply IH. destruct Hstep as [c' Hstep|req c' Hchange].
  - by eapply reconcile_step_preserves.
  - by eapply change_then_reconcile_restores.
Qed.

(** The cluster changes only through a write that the store accepts: an
    invocation whose writes were all refused, or that made none, leaves the
    cluster as it was. *)
Lemma cluster_changes_only_by_accepted_write (c : Cluster)
    (fs : list (option error)) (req : Request)
    (out : Outcome (Result * option error)) (w' : ApiServer) (log : list Event) :
  invoke req (mkApiServer c fs) = (out, (w', log)) ->
  (forall ev, In ev log -> is_write ev = true -> failure_of ev <> None) ->
  cluster w' = c.
Proof.
  intros Hrun Hrefused. split_store; try done.
  all: exfalso.
  all: match goal with
       | Hr : context [EvCreate ?d None = _] |- _ => apply (Hr (EvCreate d None))
       | Hr : context [EvDelete ?d None = _] |- _ => apply (Hr (EvDelete d None))
       | Hr : context [EvStatusUpdate ?d None = _] |- _ =>
           apply (Hr (EvStatusUpdate d None))
       end; [repeat (first [by left | right]) | done | done].
Qed.

(** C9 (no resize).  In an invocation that does not take the cleanup path,
    on a cluster where the Deployment of the requested identity exists, the
    stored Deployments are left exactly as they were, whatever the store
    answers: the existing Deployment is neither replaced nor deleted, and
    its replica count stays what it was even when it differs from the
    desired size. *)
Theorem C9_existing_workload_untouched (c : Cluster) (fs : list (option error))
    (req : Request) (deployment : appsv1.Deployment)
    (out : Outcome (Result * option error)) (w' : ApiServer) (log : list Event) :
  keyed_by_name c ->
  deployments c !! key_in req = Some deployment ->
  invoke req (mkApiServer c fs) = (out, (w', log)) ->
  (forall e, In (EvGetHomeAgent (key_in req) (inr e)) log -> IsNotFound e = false) ->
  deployments (cluster w') = deployments c
  /\ deployments (cluster w') !! key_in req = Some deployment
  /\ Forall (fun ev => is_delete ev = false) log
  /\ (forall obj, ~ In (EvCreate obj None) log).
Proof.
  intros [Hha Hdep] Hd Hrun Hmain.
  split_store.
  all: try (exfalso;
            match goal with
            | Hnf : IsNotFound ?e = true |- _ =>
                specialize (Hmain e (or_introl eq_refl)); congruence
            end).
  all: learn_keys Hha Hdep.
  all: try congruence.
  all: repeat split; try done.
  all: try (repeat constructor; done).
  all: intros obj Hin; simpl in Hin; intuition congruence.
Qed.

(** ** Two invocations in a row on a healthy server *)

(** Unfold an invocation on the concrete server down to the maps. *)
Ltac unfold_store :=
  unfold cluster_after in *; unfold_run;
  unfold GetHomeAgent, GetDeployment, Create, Delete, List, StatusUpdate,
    apiserver in *;
  unfold inject, store_get_homeagent, store_get_deployment, store_create,
    store_delete, store_list, store_status_update in *; simpl in *.

Lemma healthy_cleanup_absent (c : Cluster) (req : Request) :
  homeagents c !! key_in req = None ->
  deployments c !! key_in req = None ->
  invoke req (healthy c)
  = (Returned (mkResult false 0, None),
     (healthy c, [EvGetHomeAgent (key_in req) (inr not_found);
                  EvGetDeployment (key_in req) (inr not_found)])).
Proof. intros Hha Hdep. unfold_store. rewrite Hha. simpl. by rewrite Hdep. Qed.

Lemma healthy_cleanup_present (c : Cluster) (req : Request)
    (deployment : appsv1.Deployment) :
  homeagents c !! key_in req = None ->
  deployments c !! key_in req = Some deployment ->
  key_of (appsv1.ObjectMeta deployment) = key_in req ->
  invoke req (healthy c)
  = (Returned (mkResult false 0, None),
     (healthy (mkCluster (homeagents c) (delete (key_in req) (deployments c)) (pods c)),
      [EvGetHomeAgent (key_in req) (inr not_found);
       EvGetDeployment (key_in req) (inl deployment);
       EvDelete deployment None])).
Proof.
  intros Hha Hdep Hkey. unfold_store. rewrite Hha. simpl. rewrite Hdep. simpl.
  unfold key_of in *. simpl in *. by rewrite Hkey, Hdep.
Qed.

Lemma healthy_create (c : Cluster) (req : Request) (home_agent : prairiev1.HomeAgent) :
  homeagents c !! key_in req = Some home_agent ->
  deployments c !! key_in req = None ->
  key_of (prairiev1.ObjectMeta home_agent) = key_in req ->
  invoke req (healthy c)
  = (Returned (mkResult false wait_duration, None),
     (healthy (mkCluster (homeagents c)
                 (<[key_in req := CreateDeployment home_agent]> (deployments c))
                 (pods c)),
      [EvGetHomeAgent (key_in req) (inl home_agent);
       EvGetDeployment (key_in req) (inr not_found);
       EvCreate (CreateDeployment home_agent) None])).
Proof.
  intros Hha Hdep Hkey. unfold_store. rewrite Hha. simpl. rewrite Hdep. simpl.
  unfold key_of in *. simpl in *. by rewrite Hkey, Hdep.
Qed.

(** With both objects present the only possible write is the status update,
    and the addresses it commits are a function of the desired size, the
    name and the pods. *)
Lemma healthy_found (c : Cluster) (req : Request)
    (home_agent : prairiev1.HomeAgent) (deployment : appsv1.Deployment) :
  homeagents c !! key_in req = Some home_agent ->
  deployments c !! key_in req = Some deployment ->
  key_of (prairiev1.ObjectMeta home_agent) = key_in req ->
  exists out c' log,
    invoke req (healthy c) = (out, (healthy c', log))
    /\ no_create_delete log
    /\ (c' = c
        \/ exists podips ips,
             size_of home_agent <= ready_of deployment
             /\ make_strings (size_of home_agent) = Some podips
             /\ collect_podips 0
                  (filter (has_labels (parent_selector (name_of home_agent))) (pods c))
                  podips = LoopDone ips
             /\ c' = mkCluster
                       (<[key_in req := set_NodeIps home_agent ips]> (homeagents c))
                       (deployments c) (pods c)).
Proof.
  intros Hha Hdep Hkey. unfold_store. rewrite Hha. simpl. rewrite Hdep. simpl.
  unfold key_of in *. simpl in *. fold (parent_selector (name_of home_agent)).
  destruct (Z.ltb_spec (ready_of deployment) (size_of home_agent)).
  { do 3 eexists. split; [done|]. split; [|by left]. by repeat constructor. }
  destruct (make_strings (size_of home_agent)) as [podips|] eqn:Hmk.
  2: { do 3 eexists. split; [done|]. split; [|by left]. by repeat constructor. }
  destruct (collect_podips 0 _ podips) as [ips|res err|msg] eqn:Hloop.
  2,3: do 3 eexists; (split; [done|]); (split; [|by left]); by repeat constructor.
  simpl. rewrite Hkey, Hha.
  do 3 eexists. split; [done|]. split; [by repeat constructor|].
  right. by exists podips, ips.
Qed.

(** C2, as amended.  On a healthy server, run an invocation and then a
    second one on the world the first left behind.  The second invocation
    issues no create and no delete call; its only possible write is the
    status update, which it issues again whenever it reaches the last step.
    The cluster after the second invocation is the cluster after the first,
    unless the first invocation created a Deployment for a desired size of
    zero. *)
Theorem C2_second_invocation_settles (c : Cluster) (req : Request) :
  keyed_by_name c ->
  let first := invoke req (healthy c) in
  let second := invoke req (fst (snd first)) in
  no_create_delete (snd (snd second))
  /\ ((forall obj ans, In (EvCreate obj ans) (snd (snd first)) ->
         appsv1.Replicas (appsv1.Spec obj) <> Some 0) ->
      cluster (fst (snd second)) = cluster (fst (snd first))).
Proof.
  intros [Hha Hdep]. simpl.
  destruct (homeagents c !! key_in req) as [home_agent|] eqn:Ea;
    destruct (deployments c !! key_in req) as [deployment|] eqn:Ed.
  - pose proof (Hha _ _ Ea) as Hkey. simpl in Hkey.
    destruct (healthy_found c req _ _ Ea Ed Hkey)
      as (out & c' & log & Hrun & Hlog & [->|Hupd]).
    { rewrite Hrun. simpl. rewrite Hrun. by simpl. }
    destruct Hupd as (podips & ips & Hready & Hmk & Hloop & ->).
    rewrite Hrun. simpl.
    match goal with
    | |- context [invoke req (healthy ?c1)] =>
        destruct (healthy_found c1 req (set_NodeIps home_agent ips) deployment)
          as (out2 & c2 & log2 & Hrun2 & Hlog2 & [->|Hupd2])
    end; simpl; try done.
    { apply lookup_insert_eq. }
    { by rewrite Hrun2. }
    destruct Hupd2 as (podips2 & ips2 & _ & Hmk2 & Hloop2 & ->).
    simpl in *. rewrite Hrun2. simpl. split; [done|]. intros _.
    rewrite Hmk in Hmk2. simplify_eq. rewrite Hloop in Hloop2. simplify_eq.
    f_equal. by rewrite insert_insert_eq.
  - pose proof (Hha _ _ Ea) as Hkey. simpl in Hkey.
    rewrite (healthy_create c req _ Ea Ed Hkey). simpl.
    match goal with
    | |- context [invoke req (healthy ?c1)] =>
        destruct (healthy_found c1 req home_agent (CreateDeployment home_agent))
          as (out2 & c2 & log2 & Hrun2 & Hlog2 & [->|Hupd2])
    end; simpl; try done.
    { apply lookup_insert_eq. }
    { by rewrite Hrun2. }
    destruct Hupd2 as (podips2 & ips2 & Hready & Hmk2 & _ & ->).
    rewrite Hrun2. simpl. split; [done|]. intros Hsize. exfalso.
    apply (Hsize (CreateDeployment home_agent) None); [by right; right; left|].
    simpl in *. unfold make_strings in Hmk2.
    destruct (Z.ltb_spec (size_of home_agent) 0); [done|].
    f_equal. lia.
  - pose proof (Hdep _ _ Ed) as Hkey. simpl in Hkey.
    rewrite (healthy_cleanup_present c req _ Ea Ed Hkey). simpl.
    rewrite healthy_cleanup_absent; simpl; [|done|apply lookup_delete_eq].
    split; [by repeat constructor|done].
  - rewrite (healthy_cleanup_absent c req Ea Ed). simpl.
    rewrite (healthy_cleanup_absent c req Ea Ed). simpl.
    split; [by repeat constructor|done].
Qed.


(** ** Evaluations and counterexamples *)

(** C10: the index write is not always in bounds.  On [shrunk_cluster] the
    listing answers with three pods, the buffer has length two, and the
    invocation panics at the third write. *)
Theorem C10_extra_instance_panics :
  fst (invoke sample_req (healthy shrunk_cluster))
  = Panicked "index out of range".
Proof. vm_compute. reflexivity. Qed.

(** The full scenario: size 2, no Deployment yet; then the Deployment is up
    with two pods. *)
Example full_scenario_create :
  fst (invoke sample_req
         (healthy (sample_cluster (Some (sample_agent 2 [])) None [])))
  = Returned (mkResult false 800000000, None).
Proof. vm_compute. reflexivity. Qed.

Example full_scenario_converge :
  fst (invoke sample_req (healthy converged_cluster))
  = Returned (mkResult false 0, None)
  /\ homeagents (cluster_after sample_req (healthy converged_cluster)) !! sample_key
     = Some (sample_agent 2 ["2001:db8::1"; "2001:db8::2"]%string).
Proof. split; vm_compute; reflexivity. Qed.

(** C2 does not hold literally: on the converged cluster the second
    invocation commits the status once more. *)
Lemma C2_second_invocation_updates_again :
  ~ idempotent_as_stated converged_cluster sample_req.
Proof.
  intros [_ Hlog]. vm_compute in Hlog.
  do 3 apply Forall_inv_tail in Hlog. apply Forall_inv in Hlog. discriminate.
Qed.

(** For a desired size of zero the store itself still moves at the second
    invocation: the first creates the Deployment, the second replaces the
    stale addresses by the empty list. *)
Example second_invocation_changes_store_for_size_zero :
  let c := sample_cluster (Some (sample_agent 0 ["2001:db8::9"%string])) None [] in
  let first := invoke sample_req (healthy c) in
  let second := invoke sample_req (fst (snd first)) in
  homeagents (cluster (fst (snd first))) !! sample_key
  = Some (sample_agent 0 ["2001:db8::9"%string])
  /\ homeagents (cluster (fst (snd second))) !! sample_key
     = Some (sample_agent 0 []).
Proof. split; vm_compute; reflexivity. Qed.

(** C3 does not hold literally: with size 3, four ready replicas and two
    pods listed, the status is written, and its third address is the empty
    string. *)
Lemma C3_written_when_ready_exceeds_size :
  ~ written_only_when_ready_equals_size short_listing_cluster sample_req
  /\ ~ no_empty_address_written short_listing_cluster sample_req.
Proof.
  split.
  - intros Hclaim.
    specialize (Hclaim
      (sample_agent 3 ["2001:db8::1"; "2001:db8::2"; EmptyString]%string) None
      (sample_agent 3 []) (sample_deployment 3 4)).
    assert (Hbad : 4 = 3); [|lia].
    apply Hclaim; [|vm_compute; reflexivity|vm_compute; reflexivity].
    vm_compute. do 3 right. left. reflexivity.
  - intros Hclaim.
    specialize (Hclaim
      (sample_agent 3 ["2001:db8::1"; "2001:db8::2"; EmptyString]%string) None).
    assert (Hin : In (EvStatusUpdate
                        (sample_agent 3 ["2001:db8::1"; "2001:db8::2"; EmptyString]%string)
                        None)
                     (snd (snd (invoke sample_req (healthy short_listing_cluster))))).
    { vm_compute. do 3 right. left. reflexivity. }
    apply Hclaim in Hin. simpl in Hin.
    do 2 apply Forall_inv_tail in Hin. apply Forall_inv in Hin. done.
Qed.

(** C6 does not hold literally: in the cleanup path a failing [Delete] is
    dropped and the invocation returns a nil error. *)
Lemma C6_cleanup_swallows_delete_failure :
  ~ failure_surfaced_as_stated
      (mkApiServer orphan_cluster [None; None; Some internal_error]) sample_req.
Proof.
  intros Hclaim.
  specialize (Hclaim (EvDelete (sample_deployment 2 2) (Some internal_error))
                internal_error).
  assert (Hbad : fst (invoke sample_req
                        (mkApiServer orphan_cluster [None; None; Some internal_error]))
                 = Returned (mkResult false 0, Some internal_error)).
  { apply Hclaim; [|reflexivity|reflexivity].
    vm_compute. do 2 right. left. reflexivity. }
  vm_compute in Hbad. discriminate.
Qed.

(** The same happens when the read of the Deployment fails during cleanup. *)
Example cleanup_swallows_read_failure :
  invoke sample_req (mkApiServer orphan_cluster [None; Some internal_error])
  = (Returned (mkResult false 0, None),
     (mkApiServer orphan_cluster [],
      [EvGetHomeAgent sample_key (inr not_found);
       EvGetDeployment sample_key (inr internal_error)])).
Proof. vm_compute. reflexivity. Qed.

(** ** The theorems at concrete clusters *)

Lemma sample_cluster_keyed (agent : option prairiev1.HomeAgent)
    (dep : option appsv1.Deployment) (ps : list corev1.Pod) :
  (forall a, agent = Some a -> key_of (prairiev1.ObjectMeta a) = sample_key) ->
  (forall d, dep = Some d -> key_of (appsv1.ObjectMeta d) = sample_key) ->
  keyed_by_name (sample_cluster agent dep ps).
Proof.
  intros Ha Hd. split; simpl.
  - destruct agent; [|apply map_Forall_empty].
    apply map_Forall_singleton. by apply Ha.
  - destruct dep; [|apply map_Forall_empty].
    apply map_Forall_singleton. by apply Hd.
Qed.

Lemma sample_cluster_balanced (agent : option prairiev1.HomeAgent)
    (dep : option appsv1.Deployment) (ps : list corev1.Pod) :
  (is_Some dep <-> is_Some agent) ->
  workload_iff_desired (sample_cluster agent dep ps).
Proof.
  intros Hboth key. simpl.
  destruct (decide (key = sample_key)) as [->|Hne].
  - destruct agent, dep;
      rewrite ?lookup_singleton_eq, ?lookup_empty; done.
  - destruct agent, dep;
      rewrite ?lookup_singleton_ne, ?lookup_empty by done;
      split; intros [? ?]; done.
Qed.

Lemma C1_witness :
  invoke sample_req (healthy converged_cluster)
  = (Returned (mkResult false 0, None),
     (healthy published_cluster,
      [EvGetHomeAgent sample_key (inl (sample_agent 2 []));
       EvGetDeployment sample_key (inl (sample_deployment 2 2));
       EvList (parent_selector "ha-sample")
         (inl (corev1.mkPodList [sample_pod "ha-1" "2001:db8::1";
                                 sample_pod "ha-2" "2001:db8::2"]));
       EvStatusUpdate (sample_agent 2 ["2001:db8::1"; "2001:db8::2"]%string) None])).
Proof.
  apply (C1_converged_writes_addresses sample_req
           (healthy converged_cluster) (healthy converged_cluster)
           (healthy converged_cluster) (healthy converged_cluster)
           (healthy published_cluster)
           (sample_agent 2 []) (sample_deployment 2 2)
           (corev1.mkPodList [sample_pod "ha-1" "2001:db8::1";
                              sample_pod "ha-2" "2001:db8::2"]) None).
  - simpl. lia.
  - vm_compute. reflexivity.
  - vm_compute. reflexivity.
  - simpl. lia.
  - vm_compute. reflexivity.
  - reflexivity.
  - repeat constructor; discriminate.
  - vm_compute. reflexivity.
Defined.

Lemma C7_witness :
  invoke sample_req (healthy starting_cluster)
  = (Returned (mkResult false 800000000, None),
     (healthy starting_cluster,
      [EvGetHomeAgent (key_in sample_req) (inl (sample_agent 3 []));
       EvGetDeployment (key_in sample_req) (inl (sample_deployment 3 1))])).
Proof.
  apply (C7_not_ready_requeues_without_writes sample_req
           (healthy starting_cluster) (healthy starting_cluster)
           (healthy starting_cluster)
           (sample_agent 3 []) (sample_deployment 3 1)).
  - vm_compute. reflexivity.
  - vm_compute. reflexivity.
  - simpl. lia.
Defined.

Lemma C3_witness :
  let log := snd (snd (invoke sample_req (healthy converged_cluster))) in
  let obj := sample_agent 2 ["2001:db8::1"; "2001:db8::2"]%string in
  exists home_agent deployment pods,
    In (EvGetHomeAgent (key_in sample_req) (inl home_agent)) log
    /\ In (EvGetDeployment (key_in sample_req) (inl deployment)) log
    /\ In (EvList (parent_selector (name_of home_agent)) (inl pods)) log
    /\ size_of home_agent <= ready_of deployment
    /\ Forall (fun pod => pod_ip pod <> EmptyString) (corev1.Items pods)
    /\ obj = set_NodeIps home_agent (prairiev1.NodeIps (prairiev1.Status obj))
    /\ Z.of_nat (length (prairiev1.NodeIps (prairiev1.Status obj)))
       = size_of home_agent.
Proof.
  intros log obj.
  apply (C3_status_written_only_when_ready sample_req
           (healthy converged_cluster)
           (fst (snd (invoke sample_req (healthy converged_cluster))))
           (fst (invoke sample_req (healthy converged_cluster)))
           log obj None).
  - vm_compute. reflexivity.
  - vm_compute. do 3 right. left. reflexivity.
Defined.

Lemma C4_witness :
  let d := CreateDeployment (sample_agent 2 []) in
  snd (invoke sample_req (healthy fresh_cluster))
  = (healthy created_cluster,
     [EvGetHomeAgent (key_in sample_req) (inl (sample_agent 2 []));
      EvGetDeployment (key_in sample_req) (inr not_found);
      EvCreate d None])
  /\ length (filter (fun ev => is_create ev = true)
               (snd (snd (invoke sample_req (healthy fresh_cluster))))) = 1%nat
  /\ filter (fun ev => is_status_update ev = true)
       (snd (snd (invoke sample_req (healthy fresh_cluster)))) = []
  /\ appsv1.Replicas (appsv1.Spec d) = Some 2
  /\ appsv1.Selector (appsv1.Spec d)
     = Some (metav1.mkLabelSelector (parent_selector "ha-sample"))
  /\ (@None error = None ->
      fst (invoke sample_req (healthy fresh_cluster))
      = Returned (mkResult false 800000000, None)).
Proof.
  apply (C4_absent_workload_created_once sample_req
           (healthy fresh_cluster) (healthy fresh_cluster)
           (healthy fresh_cluster) (healthy created_cluster)
           (sample_agent 2 []) not_found None).
  - vm_compute. reflexivity.
  - vm_compute. reflexivity.
  - reflexivity.
  - vm_compute. reflexivity.
Defined.

Lemma C5_witness :
  invoke sample_req (healthy orphan_cluster)
  = (Returned (mkResult false 0, None),
     (healthy (sample_cluster None None []),
      [EvGetHomeAgent sample_key (inr not_found);
       EvGetDeployment sample_key (inl (sample_deployment 2 2));
       EvDelete (sample_deployment 2 2) None])).
Proof.
  pose proof (C5_cleanup_never_fails sample_req
                (healthy orphan_cluster) (healthy orphan_cluster) not_found) as Hrun.
  vm_compute in Hrun. vm_compute. apply Hrun; reflexivity.
Defined.

Lemma C6_witness :
  let w := mkApiServer converged_cluster [None; None; Some internal_error] in
  fst (invoke sample_req w) = Returned (mkResult false 0, Some internal_error)
  /\ last (snd (snd (invoke sample_req w)))
     = Some (EvList (parent_selector "ha-sample") (inr internal_error)).
Proof.
  intros w.
  apply (C6_failure_returned_unchanged sample_req w
           (fst (snd (invoke sample_req w))) (fst (invoke sample_req w))
           (snd (snd (invoke sample_req w)))
           (EvList (parent_selector "ha-sample") (inr internal_error))
           internal_error).
  - vm_compute. reflexivity.
  - intros e Hin. vm_compute in Hin.
    repeat (destruct Hin as [Hin|Hin]; [discriminate|]). contradiction.
  - vm_compute. do 2 right. left. reflexivity.
  - reflexivity.
  - reflexivity.
Defined.

Lemma sample_cluster_changed_at (c : Cluster)
    (agent : option prairiev1.HomeAgent) (dep : option appsv1.Deployment)
    (ps : list corev1.Pod) :
  (forall key, key <> sample_key ->
     homeagents c !! key = None /\ deployments c !! key = None) ->
  keyed_by_name (sample_cluster agent dep ps) ->
  changed_at sample_key c (sample_cluster agent dep ps).
Proof.
  intros Hc Hkeyed. split; [done|]. intros key Hne.
  destruct (Hc key Hne) as [-> ->]. simpl.
  destruct agent, dep; rewrite ?lookup_singleton_ne, ?lookup_empty; done.
Qed.

Lemma sample_cluster_only_key (agent : option prairiev1.HomeAgent)
    (dep : option appsv1.Deployment) (ps : list corev1.Pod)
    (key : NamespacedName) :
  key <> sample_key ->
  homeagents (sample_cluster agent dep ps) !! key = None
  /\ deployments (sample_cluster agent dep ps) !! key = None.
Proof.
  intros Hne. simpl.
  destruct agent, dep; rewrite ?lookup_singleton_ne, ?lookup_empty; done.
Qed.

(** From the converged cluster: the user deletes the HomeAgent and the
    invocation deletes the Deployment; the user applies the HomeAgent again
    and the invocation creates the Deployment. *)
Lemma C8_witness :
  cluster_after sample_req (healthy orphan_cluster) = sample_cluster None None []
  /\ cluster_after sample_req (healthy fresh_cluster) = created_cluster
  /\ workload_iff_desired (cluster_after sample_req (healthy fresh_cluster)).
Proof.
  assert (Hdeleted : cluster_after sample_req (healthy orphan_cluster)
                     = sample_cluster None None [])
    by (vm_compute; reflexivity).
  split; [exact Hdeleted|]. split; [vm_compute; reflexivity|].
  apply (C8_workload_iff_desired_maintained converged_cluster).
  - apply sample_cluster_balanced. by split.
  - eapply rtc_l.
    + apply (managed_change converged_cluster sample_req orphan_cluster).
      apply sample_cluster_changed_at.
      * apply sample_cluster_only_key.
      * apply sample_cluster_keyed; [done|]. intros ? [= <-]. reflexivity.
    + apply rtc_once. rewrite Hdeleted.
      apply (managed_change (sample_cluster None None []) sample_req fresh_cluster).
      apply sample_cluster_changed_at.
      * apply sample_cluster_only_key.
      * apply sample_cluster_keyed; [|done]. intros ? [= <-]. reflexivity.
Defined.

Lemma C9_witness :
  let run := invoke sample_req (healthy grown_cluster) in
  deployments (cluster (fst (snd run))) = deployments grown_cluster
  /\ deployments (cluster (fst (snd run))) !! key_in sample_req
     = Some (sample_deployment 2 2)
  /\ Forall (fun ev => is_delete ev = false) (snd (snd run))
  /\ (forall obj, ~ In (EvCreate obj None) (snd (snd run))).
Proof.
  intros run.
  apply (C9_existing_workload_untouched grown_cluster [] sample_req
           (sample_deployment 2 2) (fst run) (fst (snd run)) (snd (snd run))).
  - apply sample_cluster_keyed; intros ? [= <-]; reflexivity.
  - vm_compute. reflexivity.
  - vm_compute. reflexivity.
  - intros e Hin. vm_compute in Hin.
    repeat (destruct Hin as [Hin|Hin]; [discriminate|]). contradiction.
Defined.

Lemma C2_witness :
  let first := invoke sample_req (healthy converged_cluster) in
  let second := invoke sample_req (fst (snd first)) in
  no_create_delete (snd (snd second))
  /\ ((forall obj ans, In (EvCreate obj ans) (snd (snd first)) ->
         appsv1.Replicas (appsv1.Spec obj) <> Some 0) ->
      cluster (fst (snd second)) = cluster (fst (snd first))).
Proof.
  apply (C2_second_invocation_settles converged_cluster sample_req).
  apply sample_cluster_keyed; intros ? [= <-]; reflexivity.
Defined.

(** * Further properties of the controller *)

(** ** The loop, exactly *)

Lemma collect_podips_stops_at_empty (pre : list corev1.Pod) :
  forall (idx : nat) (pod : corev1.Pod) (post : list corev1.Pod)
         (podips : list string),
    Forall (fun p => pod_ip p <> EmptyString) pre ->
    pod_ip pod = EmptyString ->
    (idx + length pre <= length podips)%nat ->
    collect_podips idx (pre ++ pod :: post) podips
    = LoopReturn (mkResult false wait_duration) None.
Proof.
  induction pre as [|p pre IH]; intros idx pod post podips Hpre Hpod Hlen;
    simpl in *.
  - by rewrite Hpod.
  - inversion Hpre as [|? ? Hp Hrest]; subst.
    destruct (String.eqb_spec (pod_ip p) EmptyString) as [|_]; [done|].
    destruct (Nat.ltb_spec idx (length podips)); [|lia].
    apply IH; [done|done|]. rewrite length_insert. lia.
Qed.

(** X16.  The loop over the listed pods ends normally exactly when every
    pod has an address and the pods are no more than the buffer is long; the
    buffer then holds the addresses in listing order, followed by what was
    in the buffer beyond them. *)
Theorem X16_loop_completes_iff (items : list corev1.Pod) (podips out : list string) :
  collect_podips 0 items podips = LoopDone out
  <-> Forall (fun pod => pod_ip pod <> EmptyString) items
      /\ (length items <= length podips)%nat
      /\ out = map (fun pod => pod_ip pod) items ++ drop (length items) podips.
Proof.
  split.
  - intros Hrun.
    destruct (collect_podips_done_inv items 0 podips out Hrun) as (Hip & Hfit & _).
    assert (Hlen : (length items <= length podips)%nat).
    { destruct Hfit as [->|]; simpl in *; lia. }
    split; [done|]. split; [done|].
    rewrite collect_podips_fits in Hrun by done. by simplify_eq.
  - intros (Hip & Hlen & ->). by rewrite collect_podips_fits.
Qed.

Section Extra.
Context {W : Type} `{Client W}.

(** X1.  An invocation makes at most four calls on the store, the first of
    which reads the HomeAgent of the request; at most one of its calls is a
    write, and a write is always the last call. *)
Theorem X1_call_budget (req : Request) (w : W) :
  let log := snd (snd (invoke req w)) in
  (length log <= 4)%nat
  /\ (exists ans, head log = Some (EvGetHomeAgent (key_in req) ans))
  /\ (length (filter (fun ev => is_write ev = true) log) <= 1)%nat
  /\ (forall ev, In ev log -> is_write ev = true -> last log = Some ev).
Proof.
  split_run.
  all: repeat split; simpl; try lia; eauto.
  all: intros ev Hin Hw;
       repeat (destruct Hin as [<-|Hin]; [try done|]); done.
Qed.

(** X2.  Whatever the store answers, a returned result never sets
    [Requeue], its delay is either zero or 800ms, and an error is never
    returned together with a delay. *)
Theorem X2_result_shape (req : Request) (w : W) :
  match fst (invoke req w) with
  | Returned (res, err) =>
      Requeue res = false
      /\ (RequeueAfter res = 0 \/ RequeueAfter res = 800000000)
      /\ (err <> None -> RequeueAfter res = 0)
  | Panicked _ => True
  end.
Proof.
  split_run; try done.
  all: try match goal with
       | Hloop : collect_podips _ _ _ = LoopReturn _ _ |- _ =>
           apply collect_podips_return_inv in Hloop as (-> & -> & _)
       end.
  all: simpl; repeat split; auto; by intros [].
Qed.

(** X3.  A returned error is never made up: it is the error that the last
    call on the store was answered with, and it comes with the zero
    [Result]. *)
Theorem X3_error_provenance (req : Request) (w : W) (res : Result) (err : error) :
  fst (invoke req w) = Returned (res, Some err) ->
  res = mkResult false 0
  /\ exists ev, last (snd (snd (invoke req w))) = Some ev
                /\ failure_of ev = Some err.
Proof.
  split_run; intros Hout; simplify_eq; try (split; [done|]; eexists; split; done).
  all: match goal with
       | Hloop : collect_podips _ _ _ = LoopReturn _ _ |- _ =>
           apply collect_podips_return_inv in Hloop as (_ & ? & _); done
       end.
Qed.
End Extra.

Section Extra2.
Context {W : Type} `{Client W}.

(** X4.  A Deployment is created only in an invocation that read the
    HomeAgent and was told that its Deployment does not exist; the object
    created is [CreateDeployment] of the HomeAgent just read, and such an
    invocation deletes nothing and writes no status. *)
Theorem X4_create_provenance (req : Request) (w : W)
    (obj : appsv1.Deployment) (ans : option error) :
  let log := snd (snd (invoke req w)) in
  In (EvCreate obj ans) log ->
  exists home_agent err,
    log = [EvGetHomeAgent (key_in req) (inl home_agent);
           EvGetDeployment (key_in req) (inr err);
           EvCreate obj ans]
    /\ IsNotFound err = true
    /\ obj = CreateDeployment home_agent.
Proof.
  split_run; intros Hin;
    repeat (destruct Hin as [Hin|Hin]; [simplify_eq|]); try done.
  all: by do 2 eexists.
Qed.

(** X5.  A Deployment is deleted only in an invocation whose read of the
    HomeAgent was answered with not-found; the object deleted is the one the
    read of the Deployment returned, and such an invocation creates nothing
    and writes no status. *)
Theorem X5_delete_provenance (req : Request) (w : W)
    (obj : appsv1.Deployment) (ans : option error) :
  let log := snd (snd (invoke req w)) in
  In (EvDelete obj ans) log ->
  exists err,
    log = [EvGetHomeAgent (key_in req) (inr err);
           EvGetDeployment (key_in req) (inl obj);
           EvDelete obj ans]
    /\ IsNotFound err = true.
Proof.
  split_run; intros Hin;
    repeat (destruct Hin as [Hin|Hin]; [simplify_eq|]); try done.
  all: by eexists.
Qed.

(** X6.  A plain success (zero [Result], nil error) has two causes only:
    the cleanup path, or a status update that the store accepted as the last
    call of the invocation. *)
Theorem X6_success_causes (req : Request) (w : W) :
  let log := snd (snd (invoke req w)) in
  fst (invoke req w) = Returned (mkResult false 0, None) ->
  (exists err, head log = Some (EvGetHomeAgent (key_in req) (inr err))
               /\ IsNotFound err = true)
  \/ (exists obj, last log = Some (EvStatusUpdate obj None)).
Proof.
  split_run; intros Hout; simplify_eq; eauto.
  all: match goal with
       | Hloop : collect_podips _ _ _ = LoopReturn _ _ |- _ =>
           apply collect_podips_return_inv in Hloop as (? & _ & _); simplify_eq
       end.
Qed.

(** X7.  A requeue has three causes only: the Deployment was just created,
    the Deployment has fewer ready replicas than the desired size, or a
    listed pod has no address yet.  It never carries an error, and no status
    update is issued in such an invocation. *)
Theorem X7_requeue_causes (req : Request) (w : W) (res : Result)
    (err : option error) :
  let log := snd (snd (invoke req w)) in
  fst (invoke req w) = Returned (res, err) ->
  RequeueAfter res <> 0 ->
  err = None
  /\ Forall (fun ev => is_status_update ev = false) log
  /\ ((exists obj, last log = Some (EvCreate obj None))
      \/ (exists home_agent deployment,
            log = [EvGetHomeAgent (key_in req) (inl home_agent);
                   EvGetDeployment (key_in req) (inl deployment)]
            /\ ready_of deployment < size_of home_agent)
      \/ (exists labels pods,
            last log = Some (EvList labels (inl pods))
            /\ Exists (fun pod => pod_ip pod = EmptyString) (corev1.Items pods))).
Proof.
  split_run; intros Hout Hdelay; simplify_eq; try done.
  all: try match goal with
       | Hloop : collect_podips _ _ _ = LoopReturn _ _ |- _ =>
           apply collect_podips_return_inv in Hloop as (_ & -> & Hex)
       end.
  all: split; [done|]; split; [by repeat constructor|].
  all: first
         [ left; by eexists
         | right; left; do 2 eexists; split; [done|]; by apply Z.ltb_lt
         | right; right; by do 2 eexists ].
Qed.

(** X8.  An invocation panics only after it has read the HomeAgent and the
    Deployment and the listing was answered with pods, and only if the
    desired size is negative or smaller than the number of listed pods.  It
    has made no write when it panics. *)
Theorem X8_panic_only_if (req : Request) (w : W) (msg : string) :
  let log := snd (snd (invoke req w)) in
  fst (invoke req w) = Panicked msg ->
  exists home_agent deployment pods,
    log = [EvGetHomeAgent (key_in req) (inl home_agent);
           EvGetDeployment (key_in req) (inl deployment);
           EvList (parent_selector (name_of home_agent)) (inl pods)]
    /\ (size_of home_agent < 0
        \/ size_of home_agent < Z.of_nat (length (corev1.Items pods))).
Proof.
  split_run; intros Hout; simplify_eq.
  all: do 3 eexists; (split; [done|]).
  all: match goal with
       | Hmk : make_strings _ = None |- _ =>
           left; unfold make_strings in Hmk; case_match; [by apply Z.ltb_lt|done]
       | Hloop : collect_podips _ _ _ = LoopPanic _,
         Hmk : make_strings _ = Some _ |- _ =>
           right; apply collect_podips_panic_inv in Hloop;
           unfold make_strings in Hmk; case_match; simplify_eq;
           rewrite length_replicate in Hloop
       end.
  all: match goal with Hlt : (_ <? 0) = false |- _ => apply Z.ltb_ge in Hlt end.
  all: simpl in *; lia.
Qed.

(** X9.  With a negative desired size, once the Deployment passes the
    readiness check and the listing is answered, the invocation panics in
    [make], whatever pods are listed, and has made no write. *)
Theorem X9_negative_size_panics (req : Request) (w w1 w2 w3 : W)
    (home_agent : prairiev1.HomeAgent) (deployment : appsv1.Deployment)
    (pods : corev1.PodList) :
  size_of home_agent < 0 ->
  GetHomeAgent (key_in req) w = (inl home_agent, w1) ->
  GetDeployment (key_in req) w1 = (inl deployment, w2) ->
  size_of home_agent <= ready_of deployment ->
  List (parent_selector (name_of home_agent)) w2 = (inl pods, w3) ->
  invoke req w
  = (Panicked "makeslice: len out of range",
     (w3, [EvGetHomeAgent (key_in req) (inl home_agent);
           EvGetDeployment (key_in req) (inl deployment);
           EvList (parent_selector (name_of home_agent)) (inl pods)])).
Proof.
  intros Hneg Hha Hdep Hready Hlist.
  unfold_run. rewrite Hha. simpl. rewrite Hdep. simpl.
  destruct (Z.ltb_spec (ready_of deployment) (size_of home_agent)); [lia|].
  fold (parent_selector (name_of home_agent)). rewrite Hlist. simpl.
  unfold make_strings.
  by destruct (Z.ltb_spec (size_of home_agent) 0); [|lia].
Qed.

(** X10.  When the listing reaches a pod without an address before it has
    run past the desired size, the invocation returns a requeue after 800ms
    and has made the three reads only, whatever pods follow in the listing:
    the status keeps its previous value. *)
Theorem X10_missing_address_requeues (req : Request) (w w1 w2 w3 : W)
    (home_agent : prairiev1.HomeAgent) (deployment : appsv1.Deployment)
    (pods : corev1.PodList) (pre post : list corev1.Pod) (pod : corev1.Pod) :
  GetHomeAgent (key_in req) w = (inl home_agent, w1) ->
  GetDeployment (key_in req) w1 = (inl deployment, w2) ->
  size_of home_agent <= ready_of deployment ->
  List (parent_selector (name_of home_agent)) w2 = (inl pods, w3) ->
  corev1.Items pods = pre ++ pod :: post ->
  Forall (fun p => pod_ip p <> EmptyString) pre ->
  pod_ip pod = EmptyString ->
  Z.of_nat (length pre) <= size_of home_agent ->
  invoke req w
  = (Returned (mkResult false 800000000, None),
     (w3, [EvGetHomeAgent (key_in req) (inl home_agent);
           EvGetDeployment (key_in req) (inl deployment);
           EvList (parent_selector (name_of home_agent)) (inl pods)])).
Proof.
  intros Hha Hdep Hready Hlist Hitems Hpre Hpod Hlen.
  unfold_run. rewrite Hha. simpl. rewrite Hdep. simpl.
  destruct (Z.ltb_spec (ready_of deployment) (size_of home_agent)); [lia|].
  fold (parent_selector (name_of home_agent)). rewrite Hlist. simpl.
  unfold make_strings.
  destruct (Z.ltb_spec (size_of home_agent) 0); [lia|].
  rewrite Hitems, collect_podips_stops_at_empty; [done|done|done|].
  rewrite length_replicate. simpl. lia.
Qed.

(** X11.  When the listing is answered with fewer pods than the desired
    size, all with an address, the status update still goes out: its
    [NodeIps] are the listed addresses in order followed by one empty string
    for each missing pod, so its length is the desired size. *)
Theorem X11_short_listing_padded (req : Request) (w w1 w2 w3 w4 : W)
    (home_agent : prairiev1.HomeAgent) (deployment : appsv1.Deployment)
    (pods : corev1.PodList) (ans : option error) :
  let n := length (corev1.Items pods) in
  let ips := map (fun pod => pod_ip pod) (corev1.Items pods)
             ++ replicate (Z.to_nat (size_of home_agent) - n) EmptyString in
  GetHomeAgent (key_in req) w = (inl home_agent, w1) ->
  GetDeployment (key_in req) w1 = (inl deployment, w2) ->
  size_of home_agent <= ready_of deployment ->
  List (parent_selector (name_of home_agent)) w2 = (inl pods, w3) ->
  Forall (fun pod => pod_ip pod <> EmptyString) (corev1.Items pods) ->
  Z.of_nat n <= size_of home_agent ->
  StatusUpdate (set_NodeIps home_agent ips) w3 = (ans, w4) ->
  invoke req w
  = (Returned (mkResult false 0, ans),
     (w4, [EvGetHomeAgent (key_in req) (inl home_agent);
           EvGetDeployment (key_in req) (inl deployment);
           EvList (parent_selector (name_of home_agent)) (inl pods);
           EvStatusUpdate (set_NodeIps home_agent ips) ans]))
  /\ Z.of_nat (length ips) = size_of home_agent.
Proof.
  intros n ips Hha Hdep Hready Hlist Hip Hlen Hupd.
  split.
  - unfold_run. rewrite Hha. simpl. rewrite Hdep. simpl.
    destruct (Z.ltb_spec (ready_of deployment) (size_of home_agent)); [lia|].
    fold (parent_selector (name_of home_agent)). rewrite Hlist. simpl.
    unfold make_strings.
    destruct (Z.ltb_spec (size_of home_agent) 0); [lia|].
    rewrite collect_podips_fits; [|done|rewrite length_replicate; simpl; lia].
    simpl. rewrite drop_replicate. fold n. fold ips.
    rewrite Hupd. by destruct ans.
  - unfold ips. rewrite length_app, length_map, length_replicate. fold n. lia.
Qed.
End Extra2.

(** ** Further properties on the concrete server *)

(** X15.  The Deployment built for a HomeAgent carries the HomeAgent's name
    and namespace, selects exactly the label its pod template carries (the
    label [Reconcile] lists pods by), and is determined by the name, the
    namespace and the size alone: the status and the labels of the HomeAgent
    play no part. *)
Theorem X15_deployment_determined_by (a b : prairiev1.HomeAgent) :
  key_of (appsv1.ObjectMeta (CreateDeployment a)) = key_of (prairiev1.ObjectMeta a)
  /\ appsv1.Selector (appsv1.Spec (CreateDeployment a))
     = Some (metav1.mkLabelSelector
               (metav1.Labels
                  (corev1.TObjectMeta
                     (appsv1.Template (appsv1.Spec (CreateDeployment a))))))
  /\ metav1.Labels
       (corev1.TObjectMeta (appsv1.Template (appsv1.Spec (CreateDeployment a))))
     = parent_selector (name_of a)
  /\ (CreateDeployment a = CreateDeployment b
      <-> name_of a = name_of b
          /\ metav1.Namespace (prairiev1.ObjectMeta a)
             = metav1.Namespace (prairiev1.ObjectMeta b)
          /\ size_of a = size_of b).
Proof.
  split; [done|]. split; [done|]. split; [done|]. split.
  - intros Heq. by injection Heq.
  - intros (Hname & Hns & Hsize). unfold CreateDeployment.
    by rewrite Hname, Hns, Hsize.
Qed.

Lemma cluster_eta (c : Cluster) :
  mkCluster (homeagents c) (deployments c) (pods c) = c.
Proof. by destruct c. Qed.

(** X13.  On a server that does not fail, [DeleteDeployment] leaves the
    cluster with no Deployment under the requested identity and with
    everything else as it was, whether or not a Deployment was there; so a
    second run changes nothing more. *)
Theorem X13_delete_deployment_removes (c : Cluster) (req : Request)
    (log : list Event) :
  keyed_by_name c ->
  let c' := mkCluster (homeagents c) (delete (key_in req) (deployments c)) (pods c) in
  fst (DeleteDeployment req (healthy c, log)) = healthy c'
  /\ fst (DeleteDeployment req (fst (DeleteDeployment req (healthy c, log)), log))
     = healthy c'.
Proof.
  intros [_ Hdep] c'.
  assert (Hrun : forall (c0 : Cluster) l,
            map_Forall (fun key obj => key_of (appsv1.ObjectMeta obj) = key)
                       (deployments c0) ->
            fst (DeleteDeployment req (healthy c0, l))
            = healthy (mkCluster (homeagents c0)
                         (delete (key_in req) (deployments c0)) (pods c0))).
  { intros c0 l Hkeyed. unfold_store.
    destruct (deployments c0 !! key_in req) as [d|] eqn:Hd; simpl.
    - pose proof (Hkeyed _ _ Hd) as Hkey. unfold key_of in *. simpl in *.
      by rewrite Hkey, Hd.
    - rewrite delete_id by done. by rewrite cluster_eta. }
  split; [by apply Hrun|].
  rewrite (Hrun c log Hdep), Hrun; simpl.
  - unfold c'. by rewrite delete_delete_eq.
  - by apply map_Forall_delete.
Qed.

(** X14.  When the HomeAgent is gone and the delete of its Deployment fails,
    the invocation still ends in success with no requeue, and the Deployment
    stays in the cluster. *)
Theorem X14_failed_cleanup_leaves_workload (c : Cluster) (req : Request)
    (deployment : appsv1.Deployment) (err : error) (rest : list (option error)) :
  homeagents c !! key_in req = None ->
  deployments c !! key_in req = Some deployment ->
  invoke req (mkApiServer c (None :: None :: Some err :: rest))
  = (Returned (mkResult false 0, None),
     (mkApiServer c rest,
      [EvGetHomeAgent (key_in req) (inr not_found);
       EvGetDeployment (key_in req) (inl deployment);
       EvDelete deployment (Some err)])).
Proof.
  intros Hha Hdep. unfold_store. rewrite Hha. simpl. by rewrite Hdep.
Qed.

Lemma invocation_keeps_keys (c : Cluster) (fs : list (option error))
    (req : Request) :
  keyed_by_name c -> keyed_by_name (cluster_after req (mkApiServer c fs)).
Proof.
  intros [Hha Hdep]. split_store; try done.
  all: split; simpl; try done.
  all: first
         [ apply map_Forall_insert_2; [|done]
         | by apply map_Forall_delete ].
  all: learn_keys Hha Hdep; done.
Qed.

Lemma reconcile_all_keeps_keys (reqs : list Request) :
  forall c, keyed_by_name c -> keyed_by_name (reconcile_all reqs c).
Proof.
  induction reqs as [|req rest IH]; intros c Hkeyed; simpl; [done|].
  apply IH. by apply invocation_keeps_keys.
Qed.

Lemma reconcile_all_frame (reqs : list Request) (key : NamespacedName) :
  forall c,
    keyed_by_name c ->
    Forall (fun req => key <> key_in req) reqs ->
    homeagents (reconcile_all reqs c) !! key = homeagents c !! key
    /\ deployments (reconcile_all reqs c) !! key = deployments c !! key.
Proof.
  induction reqs as [|req rest IH]; intros c Hkeyed Hother; simpl; [done|].
  inversion Hother as [|? ? Hne Hrest]; subst.
  destruct (IH (cluster_after req (healthy c))) as [Ha Hd];
    [by apply invocation_keeps_keys|done|].
  destruct (invocation_frame c [] req key Hkeyed Hne) as (Ha' & Hd' & _).
  unfold healthy in *. by rewrite Ha, Hd, Ha', Hd'.
Qed.

(** X12.  An invocation touches the requested identity only: whatever the
    store answers, the HomeAgents and the Deployments of every other
    namespace and name are what they were, and so are the pods. *)
Theorem X12_other_identities_untouched (c : Cluster) (fs : list (option error))
    (req : Request) (key : NamespacedName) :
  keyed_by_name c ->
  key <> key_in req ->
  let c' := cluster_after req (mkApiServer c fs) in
  homeagents c' !! key = homeagents c !! key
  /\ deployments c' !! key = deployments c !! key
  /\ pods c' = pods c.
Proof.
  intros Hkeyed Hne c'. by apply invocation_frame.
Qed.

(** X17.  After invocations for a series of requests on a server that does
    not fail, from any cluster, every identity that was requested has a
    Deployment exactly when it has a HomeAgent. *)
Theorem X17_reconciled_identities_balanced (reqs : list Request) :
  forall (c : Cluster) (req : Request),
    keyed_by_name c ->
    In req reqs ->
    workload_iff_desired_at (key_in req) (reconcile_all reqs c).
Proof.
  induction reqs as [|r rest IH]; intros c req Hkeyed Hin; [done|].
  simpl.
  assert (Hkeyed1 : keyed_by_name (cluster_after r (healthy c)))
    by by apply invocation_keeps_keys.
  destruct (decide (Exists (fun r' => key_in req = key_in r') rest)) as [Hex|Hno].
  - apply Exists_exists in Hex as (r' & Hr' & Hkey). rewrite Hkey.
    apply IH; [done|]. by apply list_elem_of_In.
  - apply not_Exists_Forall in Hno; [|intros ?; apply _].
    assert (Hreq : key_in req = key_in r).
    { destruct Hin as [->|Hin]; [done|]. exfalso.
      rewrite Forall_forall in Hno.
      by apply (Hno req); [apply list_elem_of_In|]. }
    destruct (reconcile_all_frame rest (key_in req) _ Hkeyed1) as [Ha Hd].
    { eapply Forall_impl; [exact Hno|]. simpl. intros r' Hr'. exact Hr'. }
    unfold workload_iff_desired_at. rewrite Ha, Hd, Hreq.
    by apply reconcile_establishes_workload_iff_desired.
Qed.

(** X18.  On a server that does not fail: when the HomeAgent and its
    Deployment are stored, the Deployment has at least [size] ready
    replicas, and the pods labelled [parent = name] are no more than [size]
    and all have an address, the invocation succeeds and a later read of the
    HomeAgent returns it with the same metadata and spec and with [NodeIps]
    equal to the addresses of those pods in store order, padded with empty
    strings up to [size]; the Deployments and the pods are unchanged. *)
Theorem X18_published_status_read_back (c : Cluster) (req : Request)
    (home_agent : prairiev1.HomeAgent) (deployment : appsv1.Deployment) :
  let listed := filter (has_labels (parent_selector (name_of home_agent))) (pods c) in
  let ips := map (fun pod => pod_ip pod) listed
             ++ replicate (Z.to_nat (size_of home_agent) - length listed) EmptyString in
  keyed_by_name c ->
  homeagents c !! key_in req = Some home_agent ->
  deployments c !! key_in req = Some deployment ->
  size_of home_agent <= ready_of deployment ->
  Forall (fun pod => pod_ip pod <> EmptyString) listed ->
  Z.of_nat (length listed) <= size_of home_agent ->
  fst (invoke req (healthy c)) = Returned (mkResult false 0, None)
  /\ fst (GetHomeAgent (key_in req)
            (healthy (cluster_after req (healthy c))))
     = inl (set_NodeIps home_agent ips)
  /\ deployments (cluster_after req (healthy c)) = deployments c
  /\ pods (cluster_after req (healthy c)) = pods c.
Proof.
  intros listed ips [Hkeyed _] Hha Hdep Hready Hip Hlen.
  pose proof (Hkeyed _ _ Hha) as Hkey. unfold key_of in Hkey. simpl in Hkey.
  assert (Hrun : invoke req (healthy c)
    = (Returned (mkResult false 0, None),
       (healthy (mkCluster
                   (<[key_in req := set_NodeIps home_agent ips]> (homeagents c))
                   (deployments c) (pods c)),
        [EvGetHomeAgent (key_in req) (inl home_agent);
         EvGetDeployment (key_in req) (inl deployment);
         EvList (parent_selector (name_of home_agent))
           (inl (corev1.mkPodList listed));
         EvStatusUpdate (set_NodeIps home_agent ips) None]))).
  { unfold_store. rewrite Hha. simpl. rewrite Hdep. simpl.
    destruct (Z.ltb_spec (ready_of deployment) (size_of home_agent)); [lia|].
    fold (parent_selector (name_of home_agent)). fold listed.
    unfold make_strings.
    destruct (Z.ltb_spec (size_of home_agent) 0); [lia|].
    rewrite collect_podips_fits; [|done|rewrite length_replicate; simpl; lia].
    simpl. rewrite drop_replicate. fold ips.
    unfold key_of. simpl. by rewrite Hkey, Hha. }
  unfold cluster_after. rewrite Hrun. simpl.
  repeat split; try done.
  unfold GetHomeAgent, apiserver, inject, store_get_homeagent, healthy. simpl.
  by rewrite lookup_insert_eq.
Qed.

(** ** The further properties at concrete clusters *)

Lemma shared_cluster_keyed : keyed_by_name shared_cluster.
Proof.
  split; simpl; (apply map_Forall_insert_2; [done|]);
    by apply map_Forall_singleton.
Qed.

Lemma X3_witness :
  mkResult false 0 = mkResult false 0
  /\ exists ev,
       last (snd (snd (invoke sample_req
               (mkApiServer converged_cluster [None; None; Some internal_error]))))
       = Some ev
       /\ failure_of ev = Some internal_error.
Proof.
  apply (X3_error_provenance sample_req
           (mkApiServer converged_cluster [None; None; Some internal_error])
           (mkResult false 0) internal_error).
  vm_compute. reflexivity.
Defined.

Lemma X4_witness :
  exists home_agent err,
    snd (snd (invoke sample_req (healthy fresh_cluster)))
    = [EvGetHomeAgent (key_in sample_req) (inl home_agent);
       EvGetDeployment (key_in sample_req) (inr err);
       EvCreate (CreateDeployment (sample_agent 2 [])) None]
    /\ IsNotFound err = true
    /\ CreateDeployment (sample_agent 2 []) = CreateDeployment home_agent.
Proof.
  apply (X4_create_provenance sample_req (healthy fresh_cluster)
           (CreateDeployment (sample_agent 2 [])) None).
  vm_compute. do 2 right. left. reflexivity.
Defined.

Lemma X5_witness :
  exists err,
    snd (snd (invoke sample_req (healthy orphan_cluster)))
    = [EvGetHomeAgent (key_in sample_req) (inr err);
       EvGetDeployment (key_in sample_req) (inl (sample_deployment 2 2));
       EvDelete (sample_deployment 2 2) None]
    /\ IsNotFound err = true.
Proof.
  apply (X5_delete_provenance sample_req (healthy orphan_cluster)
           (sample_deployment 2 2) None).
  vm_compute. do 2 right. left. reflexivity.
Defined.

Lemma X6_witness :
  (exists err,
     head (snd (snd (invoke sample_req (healthy converged_cluster))))
     = Some (EvGetHomeAgent (key_in sample_req) (inr err))
     /\ IsNotFound err = true)
  \/ (exists obj,
        last (snd (snd (invoke sample_req (healthy converged_cluster))))
        = Some (EvStatusUpdate obj None)).
Proof.
  apply (X6_success_causes sample_req (healthy converged_cluster)).
  vm_compute. reflexivity.
Defined.

Lemma X7_witness :
  let log := snd (snd (invoke sample_req (healthy starting_cluster))) in
  @None error = None
  /\ Forall (fun ev => is_status_update ev = false) log
  /\ ((exists obj, last log = Some (EvCreate obj None))
      \/ (exists home_agent deployment,
            log = [EvGetHomeAgent (key_in sample_req) (inl home_agent);
                   EvGetDeployment (key_in sample_req) (inl deployment)]
            /\ ready_of deployment < size_of home_agent)
      \/ (exists labels pods,
            last log = Some (EvList labels (inl pods))
            /\ Exists (fun pod => pod_ip pod = EmptyString) (corev1.Items pods))).
Proof.
  apply (X7_requeue_causes sample_req (healthy starting_cluster)
           (mkResult false 800000000) None).
  - vm_compute. reflexivity.
  - simpl. lia.
Defined.

Lemma X8_witness :
  exists home_agent deployment pods,
    snd (snd (invoke sample_req (healthy shrunk_cluster)))
    = [EvGetHomeAgent (key_in sample_req) (inl home_agent);
       EvGetDeployment (key_in sample_req) (inl deployment);
       EvList (parent_selector (name_of home_agent)) (inl pods)]
    /\ (size_of home_agent < 0
        \/ size_of home_agent < Z.of_nat (length (corev1.Items pods))).
Proof.
  apply (X8_panic_only_if sample_req (healthy shrunk_cluster) "index out of range").
  vm_compute. reflexivity.
Defined.

Lemma X9_witness :
  invoke sample_req (healthy negative_cluster)
  = (Panicked "makeslice: len out of range",
     (healthy negative_cluster,
      [EvGetHomeAgent (key_in sample_req) (inl (sample_agent (-1) []));
       EvGetDeployment (key_in sample_req) (inl (sample_deployment 1 0));
       EvList (parent_selector (name_of (sample_agent (-1) [])))
         (inl (corev1.mkPodList [sample_pod "ha-1" "2001:db8::1"]))])).
Proof.
  apply (X9_negative_size_panics sample_req
           (healthy negative_cluster) (healthy negative_cluster)
           (healthy negative_cluster) (healthy negative_cluster)
           (sample_agent (-1) []) (sample_deployment 1 0)
           (corev1.mkPodList [sample_pod "ha-1" "2001:db8::1"])).
  - simpl. lia.
  - vm_compute. reflexivity.
  - vm_compute. reflexivity.
  - simpl. lia.
  - vm_compute. reflexivity.
Defined.

Lemma X10_witness :
  invoke sample_req (healthy missing_address_cluster)
  = (Returned (mkResult false 800000000, None),
     (healthy missing_address_cluster,
      [EvGetHomeAgent (key_in sample_req) (inl (sample_agent 2 []));
       EvGetDeployment (key_in sample_req) (inl (sample_deployment 2 2));
       EvList (parent_selector (name_of (sample_agent 2 [])))
         (inl (corev1.mkPodList [sample_pod "ha-1" "2001:db8::1";
                                 sample_pod "ha-2" EmptyString]))])).
Proof.
  apply (X10_missing_address_requeues sample_req
           (healthy missing_address_cluster) (healthy missing_address_cluster)
           (healthy missing_address_cluster) (healthy missing_address_cluster)
           (sample_agent 2 []) (sample_deployment 2 2)
           (corev1.mkPodList [sample_pod "ha-1" "2001:db8::1";
                              sample_pod "ha-2" EmptyString])
           [sample_pod "ha-1" "2001:db8::1"] [] (sample_pod "ha-2" EmptyString)).
  - vm_compute. reflexivity.
  - vm_compute. reflexivity.
  - simpl. lia.
  - vm_compute. reflexivity.
  - reflexivity.
  - repeat constructor; discriminate.
  - reflexivity.
  - simpl. lia.
Defined.

Lemma X11_witness :
  fst (invoke sample_req (healthy short_listing_cluster))
  = Returned (mkResult false 0, None)
  /\ last (snd (snd (invoke sample_req (healthy short_listing_cluster))))
     = Some (EvStatusUpdate
               (sample_agent 3 ["2001:db8::1"; "2001:db8::2"; EmptyString]%string)
               None).
Proof.
  pose proof (X11_short_listing_padded sample_req
           (healthy short_listing_cluster) (healthy short_listing_cluster)
           (healthy short_listing_cluster) (healthy short_listing_cluster)
           (healthy (sample_cluster
              (Some (sample_agent 3 ["2001:db8::1"; "2001:db8::2"; EmptyString]%string))
              (Some (sample_deployment 3 4))
              [sample_pod "ha-1" "2001:db8::1"; sample_pod "ha-2" "2001:db8::2"]))
           (sample_agent 3 []) (sample_deployment 3 4)
           (corev1.mkPodList [sample_pod "ha-1" "2001:db8::1";
                              sample_pod "ha-2" "2001:db8::2"]) None) as Hrun.
  destruct Hrun as [Hrun _].
  - vm_compute. reflexivity.
  - vm_compute. reflexivity.
  - simpl. lia.
  - vm_compute. reflexivity.
  - repeat constructor; discriminate.
  - simpl. lia.
  - vm_compute. reflexivity.
  - rewrite Hrun. split; reflexivity.
Defined.

Lemma X12_witness :
  homeagents (cluster_after sample_req (mkApiServer shared_cluster [])) !! other_key
  = homeagents shared_cluster !! other_key
  /\ deployments (cluster_after sample_req (mkApiServer shared_cluster [])) !! other_key
     = deployments shared_cluster !! other_key
  /\ pods (cluster_after sample_req (mkApiServer shared_cluster []))
     = pods shared_cluster.
Proof.
  apply (X12_other_identities_untouched shared_cluster [] sample_req other_key).
  - exact shared_cluster_keyed.
  - discriminate.
Defined.

Lemma X13_witness :
  fst (DeleteDeployment sample_req (healthy orphan_cluster, []))
  = healthy (mkCluster (homeagents orphan_cluster)
               (delete (key_in sample_req) (deployments orphan_cluster))
               (pods orphan_cluster))
  /\ fst (DeleteDeployment sample_req
            (fst (DeleteDeployment sample_req (healthy orphan_cluster, [])), []))
     = healthy (mkCluster (homeagents orphan_cluster)
                  (delete (key_in sample_req) (deployments orphan_cluster))
                  (pods orphan_cluster)).
Proof.
  apply (X13_delete_deployment_removes orphan_cluster sample_req []).
  apply sample_cluster_keyed; [done|]. intros ? [= <-]. reflexivity.
Defined.

Lemma X14_witness :
  invoke sample_req (mkApiServer orphan_cluster [None; None; Some internal_error])
  = (Returned (mkResult false 0, None),
     (mkApiServer orphan_cluster [],
      [EvGetHomeAgent (key_in sample_req) (inr not_found);
       EvGetDeployment (key_in sample_req) (inl (sample_deployment 2 2));
       EvDelete (sample_deployment 2 2) (Some internal_error)])).
Proof.
  apply (X14_failed_cleanup_leaves_workload orphan_cluster sample_req
           (sample_deployment 2 2) internal_error []).
  - vm_compute. reflexivity.
  - vm_compute. reflexivity.
Defined.

Lemma X17_witness :
  workload_iff_desired_at (key_in sample_req)
    (reconcile_all [sample_req; sample_req] orphan_cluster).
Proof.
  apply (X17_reconciled_identities_balanced [sample_req; sample_req]
           orphan_cluster sample_req).
  - apply sample_cluster_keyed; [done|]. intros ? [= <-]. reflexivity.
  - left. reflexivity.
Defined.

Lemma X18_witness :
  fst (invoke sample_req (healthy converged_cluster))
  = Returned (mkResult false 0, None)
  /\ fst (GetHomeAgent (key_in sample_req)
            (healthy (cluster_after sample_req (healthy converged_cluster))))
     = inl (sample_agent 2 ["2001:db8::1"; "2001:db8::2"]%string)
  /\ deployments (cluster_after sample_req (healthy converged_cluster))
     = deployments converged_cluster.
Proof.
  destruct (X18_published_status_read_back converged_cluster sample_req
              (sample_agent 2 []) (sample_deployment 2 2))
    as (Hout & Hread & Hdep & _).
  - apply sample_cluster_keyed; intros ? [= <-]; reflexivity.
  - vm_compute. reflexivity.
  - vm_compute. reflexivity.
  - simpl. lia.
  - vm_compute. repeat constructor; discriminate.
  - vm_compute. discriminate.
  - split; [exact Hout|]. split; [|exact Hdep].
    vm_compute in Hread. vm_compute. exact Hread.
Defined.
